(** * commoncartridge: the IMSCC cartridge reader (imscc.go)

    A shallow embedding of the manifest model, the item/resource
    correlation and the identifier-based lookups of package
    [commoncartridge], with the properties its design document states
    about them.

    Conventions.  A Go function returning [(T, error)] is a function into
    [T * option Error] ([None] is the nil error): Go returns both
    components on every path and so does the model.  A Go [string] or
    [[]byte] is a [string]; a slice is a [list].  The zip reader and
    [encoding/xml] are collaborators of the package: the reader is a
    record of its two operations, the decoder a section variable. *)

From Stdlib Require Import String Ascii List Bool Arith Lia.
Import ListNotations.

Local Open Scope string_scope.
Local Open Scope list_scope.

Set Implicit Arguments.

(** ** Strings *)

(** [strings.Contains(s, substr)]: [substr] occurs somewhere inside [s]. *)
Fixpoint Contains (s substr : string) : bool :=
  String.prefix substr s
  || match s with
     | EmptyString => false
     | String _ s' => Contains s' substr
     end.

(** Membership of a string in the label list of a [case]. *)
Definition oneOf (s : string) (labels : list string) : bool :=
  existsb (String.eqb s) labels.

(** ** The manifest model (package [types]) *)

(** [xml.Name]. *)
Record Name := { Space : string; Local : string }.

Definition zeroName : Name := {| Space := ""; Local := "" |}.

Module Resource.

(** The [<file>] child of a resource. *)
Record File := { FileHref : string }.

(** [types.Resource]: the generated declaration is not part of the tree;
    these are the fields imscc.go reads. *)
Record t := mk {
  Identifier : string;
  Type_ : string;
  Href : string;
  File_ : list File
}.

Definition zero : t := mk "" "" "" [].

End Resource.

Module Item.

Local Unset Elimination Schemes.

(** [types.Item]: a node of the organization tree, with its child nodes
    in field [Item] (the generated declaration is not part of the tree;
    these are the fields imscc.go reads, and the title the CLI prints). *)
Inductive t : Type := mk {
  Identifier : string;
  Identifierref : string;
  Title : string;
  Item : list t
}.

Definition zero : t := mk "" "" "" [].

(** Induction over the tree, with the children under [Forall]. *)
Section Induction.
Variable P : t -> Prop.
Hypothesis step : forall i r ti kids, Forall P kids -> P (mk i r ti kids).

Fixpoint ind (x : t) : P x :=
  match x with
  | mk i r ti kids =>
      step i r ti
        ((fix all (l : list t) : Forall P l :=
            match l with
            | [] => Forall_nil P
            | y :: l' => Forall_cons y (ind y) (all l')
            end) kids)
  end.
End Induction.

End Item.

(** The part of the [<metadata>] node the facade reads. *)
Record ManifestMetadata := {
  MetaTitle : string;
  MetaSchema : string;
  MetaSchemaversion : string
}.

(** [types.Manifest].  [OrganizationItem] is
    [Organizations.Organization.Item], the single root item, and
    [Resources_] is [Resources.Resource], the catalog in document order. *)
Record Manifest := {
  Metadata : ManifestMetadata;
  OrganizationItem : Item.t;
  Resources_ : list Resource.t
}.

Definition zeroManifest : Manifest :=
  {| Metadata := {| MetaTitle := ""; MetaSchema := ""; MetaSchemaversion := "" |};
     OrganizationItem := Item.zero;
     Resources_ := [] |}.

(** ** Typed content variants (package [types]) *)

(** [types.WebLink], from autogen_weblink.go. *)
Record WebLinkURL := {
  URLText : string;
  URLHref : string;
  URLTarget : string;
  URLWindowFeatures : string
}.

Record WebLink := {
  WebLinkXMLName : Name;
  WebLinkText : string;
  WebLinkXmlns : string;
  WebLinkXsi : string;
  WebLinkSchemaLocation : string;
  WebLinkTitle : string;
  WebLinkURL_ : WebLinkURL
}.

(** The other four generated declarations are not part of the tree; the
    package reads their [XMLName] only. *)
Record Topic := { TopicXMLName : Name }.
Record Assignment := { AssignmentXMLName : Name }.
Record Questestinterop := { QtiXMLName : Name }.
Record CartridgeBasicltiLink := { LtiXMLName : Name }.

(** ** Errors *)

(** What the archive reader reports: a [*fs.PathError] from [Open], or an
    error of the zip layer while reading. *)
Inductive ArchiveError :=
| ErrInvalid (name : string)
| ErrNotExist (name : string)
| ErrZip (msg : string).

(** What [xml.Unmarshal] reports. *)
Inductive XMLError :=
| SyntaxError (msg : string)
| UnmarshalError (msg : string)
| UnexpectedEOF.

(** The Go [error] values that reach this package.  The three
    [fmt.Errorf] values of imscc.go are told apart by their format
    string. *)
Inductive Error :=
| OfArchive (e : ArchiveError)
| OfXML (e : XMLError)
| CouldNotFindResource (id : string)
| NoMatchingType (ty : string)
| CouldntFindFile (id : string).

(** ** The archive reader *)

(** An [fs.File]; [io.ReadAll] on it gives its bytes or an error. *)
Record fsFile := { ReadAll : ArchiveError + string }.

Record zipFile := { Name_ : string }.

(** [zip.Reader]: the entries it lists and its [Open]. *)
Record Reader := {
  File : list zipFile;
  Open : string -> ArchiveError + fsFile
}.

(** [IMSCC]. *)
Record IMSCC := {
  Reader_ : Reader;
  Path : string;
  manifest : Manifest
}.

(** The dynamic type of the [interface{}] that [Find] returns. *)
Inductive Found :=
| FoundResource (r : Resource.t)
| FoundTopic (t : Topic)
| FoundWebLink (wl : WebLink)
| FoundAssignment (a : Assignment)
| FoundQTI (q : Questestinterop)
| FoundLTI (l : CartridgeBasicltiLink).

Unset Elimination Schemes.

(** [FullItem]: an item, the resources attached to it, and its children. *)
Inductive FullItem : Type := mkFullItem {
  FullItem_Resources : list Resource.t;
  FullItem_Item : Item.t;
  Children : list FullItem
}.

Set Elimination Schemes.

(** [FullResource]: a resolved resource and the item paired with it. *)
Record FullResource := {
  FullResource_Resource : Found;
  FullResource_Item : Item.t
}.

(** A call either returns or panics (an index out of range). *)
Inductive Outcome (A : Type) :=
| Returns (a : A)
| Panics (index len : nat).

Arguments Panics {A} index len.

(** The reader with no entries. *)
Definition zeroReader : Reader :=
  {| File := []; Open := fun name => inl (ErrNotExist name) |}.

(** ** The patterns of the listers *)

(** The five patterns have one shape, a literal family name followed by
    [\d]; [FamilyDigit lit] is the compiled pattern. *)
Inductive Regexp := FamilyDigit (family : string).

Fixpoint stripPrefix (p s : string) : option string :=
  match p with
  | EmptyString => Some s
  | String a p' =>
      match s with
      | EmptyString => None
      | String b s' => if Ascii.eqb a b then stripPrefix p' s' else None
      end
  end.

(** [\d]: an ASCII digit. *)
Definition isDigit (c : ascii) : bool :=
  ((48 <=? nat_of_ascii c) && (nat_of_ascii c <=? 57))%nat.

(** The pattern matches at the start of [s]. *)
Definition matchHere (re : Regexp) (s : string) : bool :=
  match re with
  | FamilyDigit family =>
      match stripPrefix family s with
      | Some (String c _) => isDigit c
      | _ => false
      end
  end.

(** [re.Find([]byte(s)) != nil]: the pattern matches somewhere in [s]. *)
Fixpoint reFind (re : Regexp) (s : string) : bool :=
  matchHere re s
  || match s with
     | EmptyString => false
     | String _ s' => reFind re s'
     end.

(** ** Type tags of the [switch] in [Find] *)

Definition topicTypes : list string :=
  ["imsdt_xmlv1p0"; "imsdt_xmlv1p1"; "imsdt_xmlv1p2"; "imsdt_xmlv1p3"].

Definition webcontentTypes : list string := ["webcontent"].

Definition weblinkTypes : list string :=
  ["imswl_xmlv1p0"; "imswl_xmlv1p1"; "imswl_xmlv1p2"; "imswl_xmlv1p3"].

Definition assignmentTypes : list string :=
  ["assignment_xmlv1p0"; "assignment_xmlv1p1"; "assignment_xmlv1p2";
   "assignment_xmlv1p3"].

Definition qtiTypes : list string :=
  ["imsqti_xmlv1p2/imscc_xmlv1p1/assessment";
   "imsqti_xmlv1p2/imscc_xmlv1p2/assessment";
   "imsqti_xmlv1p2/imscc_xmlv1p3/assessment"].

Definition ltiTypes : list string :=
  ["imsbasiclti_xmlv1p0"; "imsbasiclti_xmlv1p1"; "imsbasiclti_xmlv1p2"].

Definition associatedcontentTypes : list string :=
  ["associatedcontent/imscc_xmlv1p0/learning-application-resource";
   "associatedcontent/imscc_xmlv1p1/learning-application-resource";
   "associatedcontent/imscc_xmlv1p2/learning-application-resource";
   "associatedcontent/imscc_xmlv1p3/learning-application-resource"].

(** The tags whose [case] decodes the backing file. *)
Definition decodedTypes : list string :=
  topicTypes ++ weblinkTypes ++ assignmentTypes ++ qtiTypes ++ ltiTypes.

(** The tags whose [case] returns the resource itself. *)
Definition rawTypes : list string := webcontentTypes ++ associatedcontentTypes.

(** [encoding/xml]: [xml.Unmarshal(bytes, &v)] on a zero [v], one function
    per target type; it yields the (possibly partly) filled value and the
    error. *)
Record XMLDecoder := {
  UnmarshalManifest : string -> Manifest * option XMLError;
  UnmarshalTopic : string -> Topic * option XMLError;
  UnmarshalWebLink : string -> WebLink * option XMLError;
  UnmarshalAssignment : string -> Assignment * option XMLError;
  UnmarshalQTI : string -> Questestinterop * option XMLError;
  UnmarshalLTI : string -> CartridgeBasicltiLink * option XMLError
}.

Section Cartridge.

Variable xml : XMLDecoder.

(** *** Find *)

(** The path [Find] opens: [r.Href] when it is set, otherwise what the
    loop [for _, f := range r.File { path = f.Href }] leaves in [path]. *)
Definition backingPath (r : Resource.t) : string :=
  if negb (Resource.Href r =? "")
  then Resource.Href r
  else fold_left (fun _ f => Resource.FileHref f) (Resource.File_ r) "".

(** The [switch r.Type] of [Find], on the bytes of the backing file. *)
Definition decodeAs (r : Resource.t) (bytes : string) : Found * option Error :=
  let ty := Resource.Type_ r in
  if oneOf ty topicTypes then
    let '(t, err) := UnmarshalTopic xml bytes in
    match err with
    | Some _ => (FoundTopic t, None)
    | None => (FoundTopic t, None)
    end
  else if oneOf ty webcontentTypes then (FoundResource r, None)
  else if oneOf ty weblinkTypes then
    let '(wl, err) := UnmarshalWebLink xml bytes in
    match err with
    | Some _ => (FoundWebLink wl, None)
    | None => (FoundWebLink wl, None)
    end
  else if oneOf ty assignmentTypes then
    let '(a, err) := UnmarshalAssignment xml bytes in
    match err with
    | Some _ => (FoundAssignment a, None)
    | None => (FoundAssignment a, None)
    end
  else if oneOf ty qtiTypes then
    let '(qti, err) := UnmarshalQTI xml bytes in
    match err with
    | Some _ => (FoundQTI qti, None)
    | None => (FoundQTI qti, None)
    end
  else if oneOf ty ltiTypes then
    let '(lti, err) := UnmarshalLTI xml bytes in
    match err with
    | Some _ => (FoundLTI lti, None)
    | None => (FoundLTI lti, None)
    end
  else if oneOf ty associatedcontentTypes then (FoundResource r, None)
  else (FoundResource r, Some (NoMatchingType ty)).

(** The body of the loop of [Find] once [r.Identifier == id]. *)
Definition resolve (cc : IMSCC) (r : Resource.t) : Found * option Error :=
  let path := backingPath r in
  if path =? "" then (FoundResource r, None)
  else
    match Open (Reader_ cc) path with
    | inl err => (FoundResource r, Some (OfArchive err))
    | inr file =>
        match ReadAll file with
        | inl err => (FoundResource r, Some (OfArchive err))
        | inr bytes => decodeAs r bytes
        end
    end.

Fixpoint findIn (cc : IMSCC) (rs : list Resource.t) (id : string)
  : Found * option Error :=
  match rs with
  | [] => (FoundResource Resource.zero, Some (CouldNotFindResource id))
  | r :: rest =>
      if Resource.Identifier r =? id then resolve cc r else findIn cc rest id
  end.

Definition Find (cc : IMSCC) (id : string) : Found * option Error :=
  findIn cc (Resources_ (manifest cc)) id.

(** *** Items *)

(** The loop of [traverseItems] over the catalog: [resources] is
    [f.Resources], appended to for each resource whose identifier
    contains the identifierref. *)
Fixpoint appendReferring (identifierref : string) (rs : list Resource.t)
  (resources : list Resource.t) : list Resource.t :=
  match rs with
  | [] => resources
  | r :: rest =>
      appendReferring identifierref rest
        (if Contains (Resource.Identifier r) identifierref
         then resources ++ [r]
         else resources)
  end.

(** [f.Resources] once [traverseItems] is past the catalog. *)
Definition referring (cc : IMSCC) (current : Item.t) : list Resource.t :=
  if negb (Item.Identifierref current =? "")
  then appendReferring (Item.Identifierref current) (Resources_ (manifest cc)) []
  else [].

(** The loop of [traverseItems] over [current.Item], with [below i]
    standing for the recursive call and [close] for [f] with its
    [Children] set. *)
Definition traverseChildren (below : Item.t -> FullItem * option Error)
  (close : list FullItem -> FullItem)
  : list Item.t -> list FullItem -> FullItem * option Error :=
  fix loop (items : list Item.t) (children : list FullItem) :=
    match items with
    | [] => (close children, None)
    | i :: rest =>
        let '(child, err) := below i in
        match err with
        | Some _ => (close children, None)
        | None => loop rest (children ++ [child])
        end
    end.

Fixpoint traverseItems (cc : IMSCC) (current : Item.t) {struct current}
  : FullItem * option Error :=
  match current with
  | Item.mk _ _ _ kids =>
      traverseChildren (traverseItems cc)
        (mkFullItem (referring cc current) current) kids []
  end.

Fixpoint itemsFrom (cc : IMSCC) (tops : list Item.t) (items : list FullItem)
  : list FullItem * option Error :=
  match tops with
  | [] => (items, None)
  | i :: rest =>
      let '(full, err) := traverseItems cc i in
      match err with
      | Some e => (items, Some e)
      | None => itemsFrom cc rest (items ++ [full])
      end
  end.

Definition Items (cc : IMSCC) : list FullItem * option Error :=
  itemsFrom cc (Item.Item (OrganizationItem (manifest cc))) [].

(** *** FindItem *)

(** The loop of [findItem], with [below x] standing for the recursive
    call [findItem(x.Item, id)]. *)
Definition findItemLoop (below : Item.t -> Item.t * option Error) (id : string)
  : list Item.t -> Item.t -> option Error -> Item.t * option Error :=
  fix loop (items : list Item.t) (item : Item.t) (err : option Error) :=
    match items with
    | [] => (item, err)
    | x :: rest =>
        if Item.Identifierref x =? id then (x, None)
        else if (0 <? List.length (Item.Item x))%nat
             then let '(item', err') := below x in loop rest item' err'
             else loop rest item err
    end.

(** [findItem(parent.Item, id)]. *)
Fixpoint findItemBelow (parent : Item.t) (id : string) {struct parent}
  : Item.t * option Error :=
  match parent with
  | Item.mk _ _ _ items =>
      findItemLoop (fun x => findItemBelow x id) id items Item.zero None
  end.

Definition findItem (items : list Item.t) (id : string) : Item.t * option Error :=
  findItemLoop (fun x => findItemBelow x id) id items Item.zero None.

Fixpoint FindItemFrom (tops : list Item.t) (id : string)
  (item : Item.t) (err : option Error) : Item.t * option Error :=
  match tops with
  | [] => (item, err)
  | i :: rest =>
      let '(item', err') := findItem (Item.Item i) id in
      match err' with
      | Some _ => (item', None)
      | None =>
          if Item.Identifierref item' =? id then (item', None)
          else FindItemFrom rest id item' err'
      end
  end.

Definition FindItem (cc : IMSCC) (id : string) : Item.t * option Error :=
  FindItemFrom (Item.Item (OrganizationItem (manifest cc))) id Item.zero None.

(** *** Resources *)

Fixpoint resourcesFrom (cc : IMSCC) (rs : list Resource.t)
  (resources : list FullResource) : list FullResource * option Error :=
  match rs with
  | [] => (resources, None)
  | r :: rest =>
      let '(found, err) := Find cc (Resource.Identifier r) in
      match err with
      | Some e => (resources, Some e)
      | None =>
          let '(item, err) := FindItem cc (Resource.Identifier r) in
          match err with
          | Some e => (resources, Some e)
          | None =>
              resourcesFrom cc rest
                (resources ++ [{| FullResource_Resource := found;
                                  FullResource_Item := item |}])
          end
      end
  end.

Definition Resources (cc : IMSCC) : list FullResource * option Error :=
  resourcesFrom cc (Resources_ (manifest cc)) [].

(** *** Per-family listers *)

(** [findResourcesByType]: the paths of every file of every resource
    whose type matches; [regexp.Compile] accepts each pattern used. *)
Definition findResourcesByType (cc : IMSCC) (pattern : Regexp)
  : list string * option Error :=
  (fold_left
     (fun paths r =>
        if reFind pattern (Resource.Type_ r)
        then fold_left (fun paths f => paths ++ [Resource.FileHref f])
               (Resource.File_ r) paths
        else paths)
     (Resources_ (manifest cc)) [],
   None).

(** The loop shared by the five listers: open, read and decode each
    path, append the decoded value when [keep] accepts it.  The error of
    [xml.Unmarshal] is dropped. *)
Fixpoint decodeEach (A : Type) (decode : string -> A * option XMLError)
  (keep : A -> bool) (cc : IMSCC) (paths : list string) (acc : list A)
  : list A * option Error :=
  match paths with
  | [] => (acc, None)
  | p :: rest =>
      match Open (Reader_ cc) p with
      | inl err => (acc, Some (OfArchive err))
      | inr file =>
          match ReadAll file with
          | inl err => (acc, Some (OfArchive err))
          | inr bytesArray =>
              let v := fst (decode bytesArray) in
              decodeEach decode keep cc rest (if keep v then acc ++ [v] else acc)
          end
      end
  end.

Definition lister (A : Type) (pattern : Regexp)
  (decode : string -> A * option XMLError) (keep : A -> bool) (cc : IMSCC)
  : list A * option Error :=
  let '(paths, err) := findResourcesByType cc pattern in
  match err with
  | Some e => ([], Some e)
  | None => decodeEach decode keep cc paths []
  end.

Definition Assignments (cc : IMSCC) : list Assignment * option Error :=
  lister (FamilyDigit "assignment_xmlv1p") (UnmarshalAssignment xml)
    (fun a => Local (AssignmentXMLName a) =? "assignment") cc.

Definition LTIs (cc : IMSCC) : list CartridgeBasicltiLink * option Error :=
  lister (FamilyDigit "imsbasiclti_xmlv1p") (UnmarshalLTI xml)
    (fun _ => true) cc.

Definition QTIs (cc : IMSCC) : list Questestinterop * option Error :=
  lister (FamilyDigit "imsqti_xmlv1p") (UnmarshalQTI xml)
    (fun q => Local (QtiXMLName q) =? "questestinterop") cc.

Definition Topics (cc : IMSCC) : list Topic * option Error :=
  lister (FamilyDigit "imsdt_xmlv1p") (UnmarshalTopic xml)
    (fun _ => true) cc.

Definition Weblinks (cc : IMSCC) : list WebLink * option Error :=
  lister (FamilyDigit "imswl_xmlv1p") (UnmarshalWebLink xml)
    (fun _ => true) cc.

(** *** FindFile *)

Fixpoint findFileIn (cc : IMSCC) (rs : list Resource.t) (id : string)
  : Outcome (option fsFile * option Error) :=
  match rs with
  | [] => Returns (None, Some (CouldntFindFile id))
  | r :: rest =>
      if Resource.Identifier r =? id then
        match Resource.File_ r with
        | [] => Panics 0 0
        | f :: _ =>
            match Open (Reader_ cc) (Resource.FileHref f) with
            | inl err => Returns (None, Some (OfArchive err))
            | inr file => Returns (Some file, None)
            end
        end
      else findFileIn cc rest id
  end.

Definition FindFile (cc : IMSCC) (id : string)
  : Outcome (option fsFile * option Error) :=
  findFileIn cc (Resources_ (manifest cc)) id.

(** *** Loading *)

(** The name left in [path] by the loop of [parseManifest]: the first
    entry whose name contains [imsmanifest.xml], else the empty string. *)
Fixpoint manifestPath (files : list zipFile) : string :=
  match files with
  | [] => ""
  | f :: rest =>
      if Contains (Name_ f) "imsmanifest.xml" then Name_ f
      else manifestPath rest
  end.

Definition parseManifest (cc : IMSCC) : Manifest * option Error :=
  let path := manifestPath (File (Reader_ cc)) in
  match Open (Reader_ cc) path with
  | inl err => (zeroManifest, Some (OfArchive err))
  | inr file =>
      match ReadAll file with
      | inl err => (zeroManifest, Some (OfArchive err))
      | inr bytesArray => (fst (UnmarshalManifest xml bytesArray), None)
      end
  end.

(** [zip.OpenReader]. *)
Variable OpenReader : string -> ArchiveError + Reader.

Definition Load (path : string) : IMSCC * option Error :=
  match OpenReader path with
  | inl err =>
      ({| Reader_ := zeroReader; Path := ""; manifest := zeroManifest |},
       Some (OfArchive err))
  | inr r =>
      let '(m, err) :=
        parseManifest {| Reader_ := r; Path := path; manifest := zeroManifest |} in
      ({| Reader_ := r; Path := path; manifest := m |}, err)
  end.

Definition Title (cc : IMSCC) : string := MetaTitle (Metadata (manifest cc)).

End Cartridge.

(** ** Views used to state the properties *)

(** An item and everything below it, in document order. *)
Fixpoint subitems (x : Item.t) : list Item.t :=
  match x with
  | Item.mk _ _ _ kids => x :: flat_map subitems kids
  end.

(** The items strictly below the immediate children of the root
    organization item. *)
Definition belowTop (cc : IMSCC) : list Item.t :=
  flat_map (fun top => flat_map subitems (Item.Item top))
    (Item.Item (OrganizationItem (manifest cc))).

(** A FullItem and every FullItem below it. *)
Fixpoint nodes (f : FullItem) : list FullItem :=
  match f with
  | mkFullItem _ _ kids => f :: flat_map nodes kids
  end.

(** The FullItem of an item when no recursive call fails: the item, the
    resources referring to it, and the FullItems of its children. *)
Fixpoint fullOf (cc : IMSCC) (x : Item.t) : FullItem :=
  match x with
  | Item.mk _ _ _ kids => mkFullItem (referring cc x) x (map (fullOf cc) kids)
  end.

(** The error is the one of a missing catalog identifier. *)
Definition isNotFound (err : option Error) : bool :=
  match err with
  | Some (CouldNotFindResource _) => true
  | _ => false
  end.

(** The file named first in the resource's file list, if any. *)
Definition firstFile (r : Resource.t) : option string :=
  match Resource.File_ r with
  | [] => None
  | f :: _ => Some (Resource.FileHref f)
  end.

(** What [findItem] and [FindItem] return for [id], the items they may
    return being among [among]: no error, and either the zero Item or an
    item of [among] whose identifierref equals [id]. *)
Definition zeroOrMatch (id : string) (among : list Item.t)
  (res : Item.t * option Error) : Prop :=
  snd res = None
  /\ (fst res = Item.zero
      \/ (Item.Identifierref (fst res) = id /\ In (fst res) among)).

(** The entry [Resources] appends for catalog resource [r]. *)
Definition entryOf (xml : XMLDecoder) (cc : IMSCC) (r : Resource.t) : FullResource :=
  {| FullResource_Resource := fst (Find xml cc (Resource.Identifier r));
     FullResource_Item := fst (FindItem cc (Resource.Identifier r)) |}.

(** What is behind a path of the archive: [Open], then [io.ReadAll]. *)
Definition readPath (cc : IMSCC) (p : string) : ArchiveError + string :=
  match Open (Reader_ cc) p with
  | inl err => inl err
  | inr f => ReadAll f
  end.

(** The bytes behind a readable path (empty when it cannot be read). *)
Definition contentOf (cc : IMSCC) (p : string) : string :=
  match readPath cc p with
  | inl _ => ""
  | inr bytes => bytes
  end.

(** The error is the archive's, for one of the paths the pattern lists. *)
Definition unreadable (cc : IMSCC) (paths : list string) (e : Error) : Prop :=
  exists p a, In p paths /\ readPath cc p = inl a /\ e = OfArchive a.

(** Every path opens and reads. *)
Definition allReadable (cc : IMSCC) (paths : list string) : Prop :=
  forall p, In p paths -> exists bytes, readPath cc p = inr bytes.

(** The last item of a list that has children of its own. *)
Fixpoint lastWithChildren (items : list Item.t) : option Item.t :=
  match items with
  | [] => None
  | x :: rest =>
      match lastWithChildren rest with
      | Some y => Some y
      | None => if (0 <? List.length (Item.Item x))%nat then Some x else None
      end
  end.

(** The type string has the family literal followed by a digit in it. *)
Definition hasFamilyDigit (family ty : string) : Prop :=
  exists pre d post,
    isDigit d = true /\ ty = (pre ++ family ++ String d post)%string.

(** ** Fixtures *)

(** A stand-in for [encoding/xml] on the byte strings of the fixtures: a
    document that is exactly one empty element named [root] decodes, and
    sets the root name only; any other input is rejected and leaves the
    zero value, as [xml.Unmarshal] does when the first element has another
    name or the input has no element. *)
Definition decodeRoot (root bytes : string) : Name * option XMLError :=
  if bytes =? "<" ++ root ++ "></" ++ root ++ ">"
  then ({| Space := ""; Local := root |}, None)
  else (zeroName, Some (UnmarshalError ("expected element type <" ++ root ++ ">"))).

Definition webLinkNamed (n : Name) : WebLink :=
  {| WebLinkXMLName := n; WebLinkText := ""; WebLinkXmlns := ""; WebLinkXsi := "";
     WebLinkSchemaLocation := ""; WebLinkTitle := "";
     WebLinkURL_ := {| URLText := ""; URLHref := ""; URLTarget := "";
                       URLWindowFeatures := "" |} |}.

Definition fixtureXML : XMLDecoder :=
  {| UnmarshalManifest := fun b => (zeroManifest, snd (decodeRoot "manifest" b));
     UnmarshalTopic := fun b =>
       ({| TopicXMLName := fst (decodeRoot "topic" b) |}, snd (decodeRoot "topic" b));
     UnmarshalWebLink := fun b =>
       (webLinkNamed (fst (decodeRoot "webLink" b)), snd (decodeRoot "webLink" b));
     UnmarshalAssignment := fun b =>
       ({| AssignmentXMLName := fst (decodeRoot "assignment" b) |},
        snd (decodeRoot "assignment" b));
     UnmarshalQTI := fun b =>
       ({| QtiXMLName := fst (decodeRoot "questestinterop" b) |},
        snd (decodeRoot "questestinterop" b));
     UnmarshalLTI := fun b =>
       ({| LtiXMLName := fst (decodeRoot "cartridge_basiclti_link" b) |},
        snd (decodeRoot "cartridge_basiclti_link" b)) |}.

(** A reader over plain entries [(name, content)]: [Open] rejects the
    empty name as invalid and otherwise looks the name up. *)
Definition zipOf (entries : list (string * string)) : Reader :=
  {| File := map (fun e => {| Name_ := fst e |}) entries;
     Open := fun name =>
       if name =? "" then inl (ErrInvalid name)
       else match find (fun e => fst e =? name) entries with
            | Some e => inr {| ReadAll := inr (snd e) |}
            | None => inl (ErrNotExist name)
            end |}.

Definition cartridgeOf (entries : list (string * string)) (root : Item.t)
  (rs : list Resource.t) : IMSCC :=
  {| Reader_ := zipOf entries;
     Path := "course.imscc";
     manifest := {| Metadata := {| MetaTitle := "Loaded Course"; MetaSchema := "";
                                   MetaSchemaversion := "" |};
                    OrganizationItem := root;
                    Resources_ := rs |} |}.

Definition file (href : string) : Resource.File := {| Resource.FileHref := href |}.

(** A web link whose resource lists the structured file first and a
    companion HTML file second. *)
Definition weblinkResource : Resource.t :=
  Resource.mk "wl1" "imswl_xmlv1p1" "" [file "wl1/link.xml"; file "wl1/link_meta.html"].

Definition ccWeblink : IMSCC :=
  cartridgeOf [("wl1/link.xml", "<webLink></webLink>");
               ("wl1/link_meta.html", "<html></html>")]
    Item.zero [weblinkResource].

(** A discussion topic whose file is not XML. *)
Definition brokenTopicResource : Resource.t :=
  Resource.mk "t1" "imsdt_xmlv1p1" "t1/topic.xml" [file "t1/topic.xml"].

Definition ccBrokenTopic : IMSCC :=
  cartridgeOf [("t1/topic.xml", "not xml")] Item.zero [brokenTopicResource].

(** A question bank: a type tag outside the [switch] of [Find]. *)
Definition questionBankResource : Resource.t :=
  Resource.mk "qb1" "imsqti_xmlv1p2/imscc_xmlv1p1/question-bank" ""
    [file "qb1/bank.xml"].

Definition ccQuestionBank : IMSCC :=
  cartridgeOf [("qb1/bank.xml", "<questestinterop></questestinterop>")]
    Item.zero [questionBankResource].

(** A resource with neither href nor files. *)
Definition filelessResource : Resource.t :=
  Resource.mk "lti1" "imsbasiclti_xmlv1p0" "" [].

Definition ccFileless : IMSCC := cartridgeOf [] Item.zero [filelessResource].

(** A web content resource whose page is not in the archive. *)
Definition missingPageResource : Resource.t :=
  Resource.mk "page1" "webcontent" "web/page.html" [file "web/page.html"].

Definition ccMissingPage : IMSCC := cartridgeOf [] Item.zero [missingPageResource].

(** A small course: the root item, a module referring to [res1] with two
    lessons below it (the first a folder holding a page), and a second
    module referring to [res3]. *)
Definition pageItem : Item.t := Item.mk "i4" "res2" "Page" [].
Definition folderItem : Item.t := Item.mk "i3" "" "Folder" [pageItem].
Definition lessonItem : Item.t := Item.mk "i5" "res1" "Lesson" [].
Definition moduleItem : Item.t := Item.mk "i1" "res1" "Module" [folderItem; lessonItem].
Definition lockedItem : Item.t := Item.mk "i2" "res3" "Locked" [].
Definition courseRoot : Item.t :=
  Item.mk "LearningModules" "" "" [moduleItem; lockedItem].

Definition courseResources : list Resource.t :=
  [Resource.mk "res1" "webcontent" "" [];
   Resource.mk "res2" "imswl_xmlv1p1" "" [file "res2/link.xml"];
   Resource.mk "res3" "webcontent" "" [];
   Resource.mk "res1_extra" "webcontent" "" []].

Definition ccCourse : IMSCC :=
  cartridgeOf [("res2/link.xml", "<webLink></webLink>")] courseRoot courseResources.

(** An assignment whose resource lists its structured file and a
    companion HTML file. *)
Definition assignmentResource : Resource.t :=
  Resource.mk "a1" "assignment_xmlv1p0" ""
    [file "a1/assignment.xml"; file "a1/assignment_meta.html"].

Definition ccAssignment : IMSCC :=
  cartridgeOf [("a1/assignment.xml", "<assignment></assignment>");
               ("a1/assignment_meta.html", "<html></html>")]
    Item.zero [assignmentResource].

(** A quiz, with its assessment file. *)
Definition quizResource : Resource.t :=
  Resource.mk "q1" "imsqti_xmlv1p2/imscc_xmlv1p1/assessment" ""
    [file "q1/assessment.xml"].

Definition ccQuiz : IMSCC :=
  cartridgeOf [("q1/assessment.xml", "<questestinterop></questestinterop>")]
    Item.zero [quizResource].

(** A web link whose file is not in the archive, after one whose file
    is. *)
Definition ccMissingLink : IMSCC :=
  cartridgeOf [("wl1/link.xml", "<webLink></webLink>")] Item.zero
    [Resource.mk "wl1" "imswl_xmlv1p1" "" [file "wl1/link.xml"];
     Resource.mk "wl2" "imswl_xmlv1p2" "" [file "wl2/link.xml"]].

(** Archives on disk, for [Load]: one whose manifest is not XML, one
    without a manifest. *)
Definition fixtureOpenReader (path : string) : ArchiveError + Reader :=
  if path =? "broken.imscc" then inr (zipOf [("course/imsmanifest.xml", "not xml")])
  else if path =? "empty.imscc" then inr (zipOf [("readme.txt", "hello")])
  else inl (ErrNotExist path).

(** * Properties *)

Unset Implicit Arguments.

(** ** Strings *)

Lemma prefix_app (p s : string) :
  String.prefix p s = true <-> exists rest, s = (p ++ rest)%string.
Proof.
  revert s. induction p as [|a p IH]; intros s.
  - destruct s; simpl; split; eauto.
  - destruct s as [|b s]; simpl.
    + split; [discriminate | intros [rest H]; discriminate].
    + destruct (ascii_dec a b) as [->|Hne].
      * rewrite IH. split; intros [rest H]; exists rest; congruence.
      * split; [discriminate | intros [rest H]; congruence].
Qed.

(** [Contains] is the substring test. *)
Lemma Contains_spec (s sub : string) :
  Contains s sub = true <-> exists pre post, s = (pre ++ sub ++ post)%string.
Proof.
  induction s as [|c s IH].
  - change (Contains "" sub) with (String.prefix sub "" || false).
    rewrite orb_true_iff, prefix_app. split.
    + intros [[rest H]|H]; [|discriminate]. exists "", rest. exact H.
    + intros [pre [post H]]. left. destruct pre; simpl in H.
      * exists post. exact H.
      * discriminate.
  - change (Contains (String c s) sub)
      with (String.prefix sub (String c s) || Contains s sub).
    rewrite orb_true_iff, prefix_app, IH. split.
    + intros [[rest H]|[pre [post H]]].
      * exists "", rest. exact H.
      * exists (String c pre), post. simpl. now rewrite H.
    + intros [pre [post H]]. destruct pre as [|d pre]; simpl in H.
      * left. exists post. exact H.
      * right. exists pre, post. congruence.
Qed.

Lemma Contains_empty (s : string) : Contains s "" = true.
Proof. apply Contains_spec. exists "", s. reflexivity. Qed.

(** ** Find *)

Section FindProperties.

Variable xml : XMLDecoder.

(** Case analysis on the [switch] of [Find] and on what the decoder
    returned. *)
Ltac switch_cases :=
  unfold decodeAs;
  repeat match goal with
    | |- context [if oneOf ?ty ?labels then _ else _] =>
        destruct (oneOf ty labels) eqn:?
    | |- context [let '(_, _) := ?d in _] =>
        let v := fresh "v" in let e := fresh "e" in
        destruct d as [v [e|]]
    end;
  simpl.

Lemma decodeAs_error (r : Resource.t) (bytes : string) :
  snd (decodeAs xml r bytes) = None
  \/ snd (decodeAs xml r bytes) = Some (NoMatchingType (Resource.Type_ r)).
Proof. switch_cases; auto. Qed.

(** No decoder error leaves the [switch]. *)
Lemma decodeAs_never_xml_error (r : Resource.t) (bytes : string) (e : XMLError) :
  snd (decodeAs xml r bytes) <> Some (OfXML e).
Proof. destruct (decodeAs_error r bytes) as [H|H]; rewrite H; discriminate. Qed.

Lemma resolve_not_notfound (cc : IMSCC) (r : Resource.t) :
  isNotFound (snd (resolve xml cc r)) = false.
Proof.
  unfold resolve.
  destruct (backingPath r =? ""); [reflexivity|].
  destruct (Open (Reader_ cc) (backingPath r)) as [e|f]; [reflexivity|].
  destruct (ReadAll f) as [e|bytes]; [reflexivity|].
  destruct (decodeAs_error r bytes) as [H|H]; rewrite H; reflexivity.
Qed.

(** [Find] resolves the first catalog resource carrying the identifier. *)
Lemma findIn_first (cc : IMSCC) (pre post : list Resource.t) (r : Resource.t) :
  (forall p, In p pre -> Resource.Identifier p <> Resource.Identifier r) ->
  findIn xml cc (pre ++ r :: post) (Resource.Identifier r) = resolve xml cc r.
Proof.
  induction pre as [|p pre IH]; intros Hpre; simpl.
  - now rewrite String.eqb_refl.
  - destruct (String.eqb_spec (Resource.Identifier p) (Resource.Identifier r)) as [E|_].
    + exfalso. apply (Hpre p); [now left | exact E].
    + apply IH. intros q Hq. apply Hpre. now right.
Qed.

Lemma findIn_absent (cc : IMSCC) (rs : list Resource.t) (id : string) :
  (forall r, In r rs -> Resource.Identifier r <> id) ->
  findIn xml cc rs id = (FoundResource Resource.zero, Some (CouldNotFindResource id)).
Proof.
  induction rs as [|r rs IH]; intros Habs; simpl; [reflexivity|].
  destruct (String.eqb_spec (Resource.Identifier r) id) as [E|_].
  - exfalso. apply (Habs r); [now left | exact E].
  - apply IH. intros q Hq. apply Habs. now right.
Qed.

Lemma findIn_present (cc : IMSCC) (rs : list Resource.t) (id : string) :
  (exists r, In r rs /\ Resource.Identifier r = id) ->
  exists r, In r rs /\ Resource.Identifier r = id
            /\ findIn xml cc rs id = resolve xml cc r.
Proof.
  induction rs as [|r rs IH]; intros [q [Hin Hid]]; [destruct Hin|].
  simpl. destruct (String.eqb_spec (Resource.Identifier r) id) as [E|Hne].
  - exists r. repeat split; [now left | exact E].
  - destruct Hin as [->|Hin]; [contradiction|].
    destruct IH as [r' [Hin' [Hid' Hres]]]; [now exists q|].
    exists r'. repeat split; [now right | exact Hid' | exact Hres].
Qed.

(** C1.  [Find] on an identifier carried by some catalog resource never
    returns the error of a missing identifier ([could not find resource
    with id]); on an identifier carried by no catalog resource it always
    returns that error, with the zero Resource. *)
Theorem Find_not_found (cc : IMSCC) (id : string) :
  ((exists r, In r (Resources_ (manifest cc)) /\ Resource.Identifier r = id) ->
   isNotFound (snd (Find xml cc id)) = false)
  /\ ((forall r, In r (Resources_ (manifest cc)) -> Resource.Identifier r <> id) ->
      Find xml cc id
      = (FoundResource Resource.zero, Some (CouldNotFindResource id))).
Proof.
  unfold Find. split.
  - intros Hex. destruct (findIn_present cc _ _ Hex) as [r [_ [_ ->]]].
    apply resolve_not_notfound.
  - apply findIn_absent.
Qed.

(** *** The backing path *)

Lemma backingPath_href (r : Resource.t) :
  Resource.Href r <> "" -> backingPath r = Resource.Href r.
Proof.
  intros H. unfold backingPath.
  destruct (String.eqb_spec (Resource.Href r) ""); [contradiction | reflexivity].
Qed.

Lemma last_cons_default (l : list string) (a d d' : string) :
  last (a :: l) d = last (a :: l) d'.
Proof.
  revert a. induction l as [|b l IH]; intros a; [reflexivity|].
  change (last (b :: l) d = last (b :: l) d'). apply IH.
Qed.

Lemma fold_left_last (fs : list Resource.File) (d : string) :
  fold_left (fun _ f => Resource.FileHref f) fs d
  = last (map Resource.FileHref fs) d.
Proof.
  revert d. induction fs as [|f fs IH]; intros d; [reflexivity|].
  simpl fold_left. rewrite IH. destruct fs as [|g fs]; [reflexivity|].
  change (map Resource.FileHref (f :: g :: fs))
    with (Resource.FileHref f :: map Resource.FileHref (g :: fs)).
  change (last (Resource.FileHref f :: map Resource.FileHref (g :: fs)) d)
    with (last (map Resource.FileHref (g :: fs)) d).
  apply last_cons_default.
Qed.

(** Without an href the path is the one of the file listed last. *)
Lemma backingPath_files (r : Resource.t) :
  Resource.Href r = "" ->
  backingPath r = last (map Resource.FileHref (Resource.File_ r)) "".
Proof.
  intros H. unfold backingPath. rewrite H. simpl. apply fold_left_last.
Qed.

(** A resource with neither href nor files resolves to itself. *)
Lemma resolve_fileless (cc : IMSCC) (r : Resource.t) :
  Resource.Href r = "" -> Resource.File_ r = [] ->
  resolve xml cc r = (FoundResource r, None).
Proof.
  intros Hh Hf. unfold resolve.
  rewrite (backingPath_files r Hh), Hf. reflexivity.
Qed.

(** *** Types outside the decoded families *)

Lemma oneOf_app (ty : string) (l1 l2 : list string) :
  oneOf ty (l1 ++ l2) = oneOf ty l1 || oneOf ty l2.
Proof. apply existsb_app. Qed.

Lemma decodeAs_undecoded (r : Resource.t) (bytes : string) :
  oneOf (Resource.Type_ r) decodedTypes = false ->
  decodeAs xml r bytes
  = (FoundResource r,
     if oneOf (Resource.Type_ r) rawTypes then None
     else Some (NoMatchingType (Resource.Type_ r))).
Proof.
  unfold decodedTypes, rawTypes. rewrite !oneOf_app, !orb_false_iff.
  intros (Ht & Hw & Ha & Hq & Hl).
  unfold decodeAs. rewrite Ht, Hw, Ha, Hq, Hl.
  destruct (oneOf (Resource.Type_ r) webcontentTypes); [reflexivity|].
  destruct (oneOf (Resource.Type_ r) associatedcontentTypes); reflexivity.
Qed.

(** C4, as the code has it.  For the first catalog resource carrying its
    identifier, with a type tag outside the decoded families, [Find]
    always returns the raw Resource as its value.  The error is nil when
    the resource has no backing path; when the backing file opens and
    reads, the error is nil for [webcontent] and the four
    [associatedcontent] tags and is [no matching type found] for every
    other tag; an archive error on opening or reading is returned. *)
Theorem Find_undecoded_type (cc : IMSCC) (pre post : list Resource.t)
  (r : Resource.t) :
  Resources_ (manifest cc) = pre ++ r :: post ->
  (forall p, In p pre -> Resource.Identifier p <> Resource.Identifier r) ->
  oneOf (Resource.Type_ r) decodedTypes = false ->
  fst (Find xml cc (Resource.Identifier r)) = FoundResource r
  /\ (backingPath r = "" -> snd (Find xml cc (Resource.Identifier r)) = None)
  /\ (forall f bytes,
        backingPath r <> "" ->
        Open (Reader_ cc) (backingPath r) = inr f -> ReadAll f = inr bytes ->
        snd (Find xml cc (Resource.Identifier r))
        = if oneOf (Resource.Type_ r) rawTypes then None
          else Some (NoMatchingType (Resource.Type_ r)))
  /\ (forall e,
        backingPath r <> "" ->
        Open (Reader_ cc) (backingPath r) = inl e ->
        snd (Find xml cc (Resource.Identifier r)) = Some (OfArchive e))
  /\ (forall f e,
        backingPath r <> "" ->
        Open (Reader_ cc) (backingPath r) = inr f -> ReadAll f = inl e ->
        snd (Find xml cc (Resource.Identifier r)) = Some (OfArchive e)).
Proof.
  intros Hrs Hpre Hty. unfold Find. rewrite Hrs, (findIn_first cc pre post r Hpre).
  unfold resolve.
  destruct (String.eqb_spec (backingPath r) "") as [E|NE].
  - repeat split; try reflexivity; intros; contradiction.
  - destruct (Open (Reader_ cc) (backingPath r)) as [e|f] eqn:Ho.
    + repeat split; try reflexivity; intros; simpl; try contradiction; congruence.
    + destruct (ReadAll f) as [e|bytes] eqn:Hr.
      * repeat split; try reflexivity; intros; simpl; try contradiction; congruence.
      * rewrite (decodeAs_undecoded r bytes Hty).
        repeat split; try reflexivity; intros; simpl; try contradiction; congruence.
Qed.

(** For a tag of a decoded family the [switch] returns a nil error,
    whatever the decoder reported. *)
Lemma decodeAs_decoded (r : Resource.t) (bytes : string) :
  oneOf (Resource.Type_ r) decodedTypes = true ->
  snd (decodeAs xml r bytes) = None.
Proof.
  unfold decodedTypes. rewrite !oneOf_app.
  switch_cases; intros H; try reflexivity; discriminate H.
Qed.

(** No decoder error is ever returned by [Find]. *)
Lemma Find_never_xml_error (cc : IMSCC) (id : string) (e : XMLError) :
  snd (Find xml cc id) <> Some (OfXML e).
Proof.
  unfold Find. induction (Resources_ (manifest cc)) as [|r rs IH]; simpl.
  - discriminate.
  - destruct (Resource.Identifier r =? id); [|exact IH].
    unfold resolve. destruct (backingPath r =? ""); [discriminate|].
    destruct (Open (Reader_ cc) (backingPath r)) as [a|f]; [discriminate|].
    destruct (ReadAll f) as [a|bytes]; [discriminate|].
    apply decodeAs_never_xml_error.
Qed.

End FindProperties.

Lemma Find_not_found_witness :
  isNotFound (snd (Find fixtureXML ccCourse "res2")) = false
  /\ Find fixtureXML ccCourse "nope"
     = (FoundResource Resource.zero, Some (CouldNotFindResource "nope")).
Proof.
  split.
  - apply (proj1 (Find_not_found fixtureXML ccCourse "res2")).
    exists (Resource.mk "res2" "imswl_xmlv1p1" "" [file "res2/link.xml"]).
    split; [simpl; auto | reflexivity].
  - apply (proj2 (Find_not_found fixtureXML ccCourse "nope")).
    intros r Hin. simpl in Hin.
    repeat (destruct Hin as [<-|Hin]; [discriminate|]). destruct Hin.
Defined.

(** C3 (the code takes the last file, not the first).  The web link lists
    its structured file first and a companion HTML file second; without an
    href, [Find] opens the file listed last, so it decodes the HTML file,
    which leaves a zero WebLink. *)
Theorem Find_opens_last_file :
  firstFile weblinkResource = Some "wl1/link.xml"
  /\ backingPath weblinkResource = "wl1/link_meta.html"
  /\ Find fixtureXML ccWeblink "wl1" = (FoundWebLink (webLinkNamed zeroName), None).
Proof. repeat split. Qed.

(** C4 fails as stated: a question bank, whose tag is outside the
    [switch], comes back with the error [no matching type found]. *)
Lemma Find_unknown_type_counterexample :
  In questionBankResource (Resources_ (manifest ccQuestionBank))
  /\ oneOf (Resource.Type_ questionBankResource) decodedTypes = false
  /\ Find fixtureXML ccQuestionBank (Resource.Identifier questionBankResource)
     = (FoundResource questionBankResource,
        Some (NoMatchingType "imsqti_xmlv1p2/imscc_xmlv1p1/question-bank")).
Proof. repeat split. simpl; auto. Qed.

Lemma Find_undecoded_type_witness :
  fst (Find fixtureXML ccQuestionBank "qb1") = FoundResource questionBankResource.
Proof.
  apply (Find_undecoded_type fixtureXML ccQuestionBank [] [] questionBankResource).
  - reflexivity.
  - intros p [].
  - reflexivity.
Defined.

(** C5 (decode errors are dropped).  The topic's file is not XML and the
    decoder reports it, yet [Find] returns the zero Topic with a nil
    error. *)
Theorem Find_drops_decode_error :
  snd (UnmarshalTopic fixtureXML "not xml")
  = Some (UnmarshalError "expected element type <topic>")
  /\ Find fixtureXML ccBrokenTopic "t1"
     = (FoundTopic {| TopicXMLName := zeroName |}, None).
Proof. split; reflexivity. Qed.

(** ** Items *)

Section ItemsProperties.

Variable cc : IMSCC.

(** When no recursive call fails the loop collects every child. *)
Lemma traverseChildren_all (below : Item.t -> FullItem * option Error)
  (g : Item.t -> FullItem) (close : list FullItem -> FullItem)
  (items : list Item.t) :
  Forall (fun i => below i = (g i, None)) items ->
  forall acc,
    traverseChildren below close items acc = (close (acc ++ map g items), None).
Proof.
  induction 1 as [|i items Hi _ IH]; intros acc; simpl.
  - now rewrite app_nil_r.
  - rewrite Hi, IH, <- app_assoc. reflexivity.
Qed.

(** [traverseItems] never fails, and builds the mirror of the item tree. *)
Lemma traverseItems_fullOf (x : Item.t) :
  traverseItems cc x = (fullOf cc x, None).
Proof.
  induction x as [i r ti kids IH] using Item.ind. simpl.
  now rewrite (traverseChildren_all _ (fullOf cc) _ kids IH).
Qed.

Lemma itemsFrom_all (tops : list Item.t) (acc : list FullItem) :
  itemsFrom cc tops acc = (acc ++ map (fullOf cc) tops, None).
Proof.
  revert acc. induction tops as [|i tops IH]; intros acc; simpl.
  - now rewrite app_nil_r.
  - rewrite traverseItems_fullOf, IH, <- app_assoc. reflexivity.
Qed.

(** [Items] returns one FullItem per immediate child of the root item,
    in order, and no error. *)
Lemma Items_fullOf :
  Items cc = (map (fullOf cc) (Item.Item (OrganizationItem (manifest cc))), None).
Proof. unfold Items. now rewrite itemsFrom_all. Qed.

(** The append loop selects, in order, the resources that pass the test. *)
Lemma appendReferring_filter (identifierref : string) (rs : list Resource.t) :
  forall resources,
    appendReferring identifierref rs resources
    = resources
      ++ filter (fun r => Contains (Resource.Identifier r) identifierref) rs.
Proof.
  induction rs as [|r rs IH]; intros resources; simpl.
  - now rewrite app_nil_r.
  - rewrite IH. destruct (Contains (Resource.Identifier r) identifierref).
    + now rewrite <- app_assoc.
    + reflexivity.
Qed.

Lemma fullOf_fields (x : Item.t) :
  FullItem_Item (fullOf cc x) = x
  /\ FullItem_Resources (fullOf cc x) = referring cc x
  /\ Children (fullOf cc x) = map (fullOf cc) (Item.Item x).
Proof. destruct x; repeat split. Qed.

(** The FullItems of the tree built for [x] are those of the items at
    and below [x], in document order. *)
Lemma nodes_fullOf (x : Item.t) :
  nodes (fullOf cc x) = map (fullOf cc) (subitems x).
Proof.
  induction x as [i r ti kids IH] using Item.ind.
  change (fullOf cc (Item.mk i r ti kids)
          :: flat_map nodes (map (fullOf cc) kids)
          = fullOf cc (Item.mk i r ti kids)
            :: map (fullOf cc) (flat_map subitems kids)).
  f_equal. induction IH as [|k kids Hk _ IHk]; [reflexivity|].
  simpl. now rewrite map_app, Hk, IHk.
Qed.

Lemma nodes_Items :
  flat_map nodes (fst (Items cc))
  = map (fullOf cc)
      (flat_map subitems (Item.Item (OrganizationItem (manifest cc)))).
Proof.
  rewrite Items_fullOf. simpl.
  induction (Item.Item (OrganizationItem (manifest cc))) as [|k kids IH];
    [reflexivity|].
  simpl. now rewrite map_app, nodes_fullOf, IH.
Qed.

(** C2, as the code has it.  Every FullItem of the tree that [Items]
    returns carries, when its item has an identifierref, exactly the
    catalog resources whose identifier contains that identifierref, in
    catalog order and with repetitions kept; and no resource when the
    identifierref is empty. *)
Theorem Items_attached_resources (f : FullItem) :
  In f (flat_map nodes (fst (Items cc))) ->
  (Item.Identifierref (FullItem_Item f) <> "" ->
   FullItem_Resources f
   = filter
       (fun r => Contains (Resource.Identifier r)
                   (Item.Identifierref (FullItem_Item f)))
       (Resources_ (manifest cc)))
  /\ (Item.Identifierref (FullItem_Item f) = "" -> FullItem_Resources f = []).
Proof.
  rewrite nodes_Items, in_map_iff. intros [x [<- _]].
  destruct (fullOf_fields x) as [-> [-> _]]. unfold referring.
  destruct (String.eqb_spec (Item.Identifierref x) "") as [E|NE]; simpl.
  - split; [intros; contradiction | reflexivity].
  - split; [intros _; apply appendReferring_filter | intros; contradiction].
Qed.

End ItemsProperties.

(** In the course fixture the module refers to [res1]: it receives [res1]
    and [res1_extra], whose identifier contains [res1]; the folder, which
    has no identifierref, receives nothing. *)
Example Items_course :
  map (fun f => (Item.Identifier (FullItem_Item f),
                 map Resource.Identifier (FullItem_Resources f)))
    (flat_map nodes (fst (Items ccCourse)))
  = [("i1", ["res1"; "res1_extra"]); ("i3", []); ("i4", ["res2"]);
     ("i5", ["res1"; "res1_extra"]); ("i2", ["res3"])].
Proof. reflexivity. Qed.

Lemma Items_attached_resources_witness :
  FullItem_Resources (fullOf ccCourse moduleItem)
  = filter (fun r => Contains (Resource.Identifier r) "res1") courseResources.
Proof.
  apply (Items_attached_resources ccCourse (fullOf ccCourse moduleItem)).
  - simpl. auto.
  - discriminate.
Defined.

(** C2 fails when the containment is read as the resource's identifier
    being contained in the item's identifierref: the module of the course
    fixture refers to [res1], and its FullItem, one of those [Items]
    returns, carries [res1] and [res1_extra], while only the identifier
    [res1] is contained in the identifierref. *)
Lemma Items_converse_containment_counterexample :
  In (fullOf ccCourse moduleItem) (flat_map nodes (fst (Items ccCourse)))
  /\ Item.Identifierref (FullItem_Item (fullOf ccCourse moduleItem)) = "res1"
  /\ map Resource.Identifier (FullItem_Resources (fullOf ccCourse moduleItem))
     = ["res1"; "res1_extra"]
  /\ map Resource.Identifier
       (filter
          (fun r => Contains
                      (Item.Identifierref (FullItem_Item (fullOf ccCourse moduleItem)))
                      (Resource.Identifier r))
          (Resources_ (manifest ccCourse)))
     = ["res1"]
  /\ FullItem_Resources (fullOf ccCourse moduleItem)
     <> filter
          (fun r => Contains
                      (Item.Identifierref (FullItem_Item (fullOf ccCourse moduleItem)))
                      (Resource.Identifier r))
          (Resources_ (manifest ccCourse)).
Proof.
  split; [simpl; auto|]. repeat split. discriminate.
Defined.

(** ** FindItem *)

Section FindItemProperties.

Variable id : string.

Lemma subitems_unfold (x : Item.t) :
  subitems x = x :: flat_map subitems (Item.Item x).
Proof. now destruct x. Qed.

Lemma zeroOrMatch_zero (among : list Item.t) :
  zeroOrMatch id among (Item.zero, None).
Proof. split; [reflexivity | now left]. Qed.

Lemma findItemLoop_inv (among : list Item.t)
  (below : Item.t -> Item.t * option Error) (items : list Item.t) :
  incl items among ->
  Forall (fun x => zeroOrMatch id among (below x)) items ->
  forall item err,
    zeroOrMatch id among (item, err) ->
    zeroOrMatch id among (findItemLoop below id items item err).
Proof.
  intros Hincl Hbelow. induction Hbelow as [|x items Hx _ IH]; intros item err Hacc.
  - exact Hacc.
  - simpl. destruct (String.eqb_spec (Item.Identifierref x) id) as [E|_].
    + split; [reflexivity|]. right. split; [exact E|].
      apply Hincl. now left.
    + assert (Hrest : incl items among)
        by (intros y Hy; apply Hincl; now right).
      destruct (0 <? List.length (Item.Item x))%nat.
      * destruct (below x) as [item' err']. now apply IH.
      * now apply IH.
Qed.

Lemma incl_kid_subitems (x : Item.t) (kids among : list Item.t) :
  In x kids -> incl (flat_map subitems kids) among ->
  incl (flat_map subitems (Item.Item x)) among.
Proof.
  intros Hin Hincl y Hy. apply Hincl, in_flat_map. exists x. split; [exact Hin|].
  rewrite subitems_unfold. now right.
Qed.

Lemma incl_kids (kids among : list Item.t) :
  incl (flat_map subitems kids) among -> incl kids among.
Proof.
  intros Hincl y Hy. apply Hincl, in_flat_map. exists y. split; [exact Hy|].
  rewrite subitems_unfold. now left.
Qed.

(** [findItem(parent.Item, id)] returns the zero Item or an item below
    [parent] whose identifierref is [id]. *)
Lemma findItemBelow_inv (parent : Item.t) :
  forall among,
    incl (flat_map subitems (Item.Item parent)) among ->
    zeroOrMatch id among (findItemBelow parent id).
Proof.
  induction parent as [i r ti kids IH] using Item.ind. intros among Hincl.
  simpl in Hincl |- *.
  apply findItemLoop_inv; [now apply incl_kids | | apply zeroOrMatch_zero].
  rewrite Forall_forall in IH |- *. intros x Hx.
  apply (IH x Hx). now apply incl_kid_subitems with kids.
Qed.

Lemma findItem_below (parent : Item.t) :
  findItem (Item.Item parent) id = findItemBelow parent id.
Proof. now destruct parent. Qed.

Lemma FindItemFrom_inv (among tops : list Item.t) :
  incl (flat_map (fun top => flat_map subitems (Item.Item top)) tops) among ->
  forall item err,
    zeroOrMatch id among (item, err) ->
    zeroOrMatch id among (FindItemFrom tops id item err).
Proof.
  induction tops as [|top tops IH]; intros Hincl item err Hacc; simpl.
  - exact Hacc.
  - assert (Htop : zeroOrMatch id among (findItem (Item.Item top) id)).
    { rewrite findItem_below. apply findItemBelow_inv.
      intros y Hy. apply Hincl. simpl. apply in_or_app. now left. }
    destruct (findItem (Item.Item top) id) as [item' err'].
    destruct Htop as [Herr Hitem]. simpl in Herr, Hitem. subst err'.
    destruct (Item.Identifierref item' =? id).
    + split; [reflexivity | exact Hitem].
    + apply IH; [|split; [reflexivity | exact Hitem]].
      intros y Hy. apply Hincl. simpl. apply in_or_app. now right.
Qed.

(** [FindItem] never fails; it returns the zero Item, or an item strictly
    below the immediate children of the root item whose identifierref
    equals the identifier. *)
Lemma FindItem_inv (cc : IMSCC) :
  zeroOrMatch id (belowTop cc) (FindItem cc id).
Proof.
  unfold FindItem. apply FindItemFrom_inv;
    [apply incl_refl | apply zeroOrMatch_zero].
Qed.

End FindItemProperties.

(** ** Resources *)

Section ResourcesProperties.

Variable xml : XMLDecoder.
Variable cc : IMSCC.

Lemma FindItem_no_error (id : string) : snd (FindItem cc id) = None.
Proof. apply (FindItem_inv id cc). Qed.

(** While every lookup succeeds the loop appends one entry per resource. *)
Lemma resourcesFrom_ok (rs : list Resource.t) :
  (forall r, In r rs -> snd (Find xml cc (Resource.Identifier r)) = None) ->
  forall acc,
    resourcesFrom xml cc rs acc = (acc ++ map (entryOf xml cc) rs, None).
Proof.
  induction rs as [|r rs IH]; intros Hok acc; simpl.
  - now rewrite app_nil_r.
  - pose proof (Hok r (or_introl eq_refl)) as Hr.
    pose proof (FindItem_no_error (Resource.Identifier r)) as Hi.
    unfold entryOf at 1.
    destruct (Find xml cc (Resource.Identifier r)) as [found err].
    destruct (FindItem cc (Resource.Identifier r)) as [item err'].
    simpl in Hr, Hi |- *. subst err err'.
    rewrite IH, <- app_assoc; [reflexivity|].
    intros q Hq. apply Hok. now right.
Qed.

(** The loop stops at the first resource whose lookup fails, and returns
    that error with the entries collected so far. *)
Lemma resourcesFrom_stop (done rest : list Resource.t) (r : Resource.t)
  (e : Error) :
  (forall p, In p done -> snd (Find xml cc (Resource.Identifier p)) = None) ->
  snd (Find xml cc (Resource.Identifier r)) = Some e ->
  forall acc,
    resourcesFrom xml cc (done ++ r :: rest) acc
    = (acc ++ map (entryOf xml cc) done, Some e).
Proof.
  induction done as [|p done IH]; intros Hok Hr acc; simpl.
  - destruct (Find xml cc (Resource.Identifier r)) as [found err].
    simpl in Hr. subst err. now rewrite app_nil_r.
  - pose proof (Hok p (or_introl eq_refl)) as Hp.
    pose proof (FindItem_no_error (Resource.Identifier p)) as Hi.
    unfold entryOf at 1.
    destruct (Find xml cc (Resource.Identifier p)) as [found err].
    destruct (FindItem cc (Resource.Identifier p)) as [item err'].
    simpl in Hp, Hi |- *. subst err err'.
    rewrite IH, <- app_assoc; [reflexivity | | exact Hr].
    intros q Hq. apply Hok. now right.
Qed.

(** Every entry returned is the entry of some catalog resource. *)
Lemma resourcesFrom_entries (rs : list Resource.t) :
  forall acc fr,
    In fr (fst (resourcesFrom xml cc rs acc)) ->
    In fr acc \/ exists r, In r rs /\ fr = entryOf xml cc r.
Proof.
  induction rs as [|r rs IH]; intros acc fr; simpl.
  - now left.
  - pose proof (FindItem_no_error (Resource.Identifier r)) as Hi.
    unfold entryOf in IH |- *.
    destruct (Find xml cc (Resource.Identifier r)) as [found [e|]] eqn:Hf;
      [now left|].
    destruct (FindItem cc (Resource.Identifier r)) as [item err'] eqn:Hit.
    simpl in Hi. subst err'. intros Hin.
    destruct (IH _ _ Hin) as [Hacc|[q [Hq ->]]].
    + apply in_app_or in Hacc. destruct Hacc as [Hacc|[<-|[]]]; [now left|].
      right. exists r. split; [now left|]. now rewrite Hf, Hit.
    + right. exists q. split; [now right | reflexivity].
Qed.

(** With pairwise distinct identifiers [Find] on a resource's identifier
    resolves that very resource. *)
Lemma Find_own (r : Resource.t) :
  NoDup (map Resource.Identifier (Resources_ (manifest cc))) ->
  In r (Resources_ (manifest cc)) ->
  Find xml cc (Resource.Identifier r) = resolve xml cc r.
Proof.
  intros Hnd Hin. unfold Find.
  destruct (in_split _ _ Hin) as [pre [post Hrs]]. rewrite Hrs in Hnd |- *.
  apply findIn_first. intros p Hp E.
  rewrite map_app in Hnd. simpl in Hnd. apply NoDup_remove_2 in Hnd.
  apply Hnd, in_or_app. left. rewrite <- E. now apply in_map.
Qed.

(** C7, as the code has it.  On a catalog with pairwise distinct
    identifiers: when every catalog resource resolves without error,
    [Resources] returns no error and exactly one entry per catalog
    resource, in catalog order (the resolved form of that resource, paired
    with the one Item [FindItem] returns for its identifier); when some
    resource does not resolve, [Resources] stops at the first such
    resource and returns its error with the entries of the resources
    before it. *)
Theorem Resources_one_entry_each :
  NoDup (map Resource.Identifier (Resources_ (manifest cc))) ->
  ((forall r, In r (Resources_ (manifest cc)) -> snd (resolve xml cc r) = None) ->
   Resources xml cc
   = (map (fun r =>
             {| FullResource_Resource := fst (resolve xml cc r);
                FullResource_Item := fst (FindItem cc (Resource.Identifier r)) |})
        (Resources_ (manifest cc)),
      None)
   /\ List.length (fst (Resources xml cc))
      = List.length (Resources_ (manifest cc)))
  /\ (forall done r rest e,
        Resources_ (manifest cc) = done ++ r :: rest ->
        (forall p, In p done -> snd (resolve xml cc p) = None) ->
        snd (resolve xml cc r) = Some e ->
        Resources xml cc
        = (map (fun p =>
                  {| FullResource_Resource := fst (resolve xml cc p);
                     FullResource_Item :=
                       fst (FindItem cc (Resource.Identifier p)) |})
             done,
           Some e)).
Proof.
  intros Hnd. split.
  - intros Hok.
    assert (Hall : Resources xml cc
                   = (map (entryOf xml cc) (Resources_ (manifest cc)), None)).
    { unfold Resources. rewrite resourcesFrom_ok; [reflexivity|].
      intros r Hr. rewrite (Find_own r Hnd Hr). now apply Hok. }
    rewrite Hall. split.
    + f_equal. apply map_ext_in. intros r Hr. unfold entryOf.
      now rewrite (Find_own r Hnd Hr).
    + simpl. apply length_map.
  - intros done r rest e Hrs Hdone Hr.
    assert (Hin : forall p, In p (done ++ [r]) -> In p (Resources_ (manifest cc))).
    { intros p Hp. rewrite Hrs. apply in_app_or in Hp. apply in_or_app.
      destruct Hp as [Hp|[<-|[]]]; [now left | right; now left]. }
    unfold Resources. rewrite Hrs.
    rewrite (resourcesFrom_stop done rest r e).
    + simpl. f_equal. apply map_ext_in. intros p Hp. unfold entryOf.
      rewrite (Find_own p Hnd); [reflexivity|].
      apply Hin, in_or_app. now left.
    + intros p Hp. rewrite (Find_own p Hnd); [now apply Hdone|].
      apply Hin, in_or_app. now left.
    + rewrite (Find_own r Hnd); [exact Hr|].
      apply Hin, in_or_app. right. now left.
Qed.

End ResourcesProperties.

(** C7 fails as stated: the one catalog resource names a page that is not
    in the archive, so [Resources] stops with the archive's error and
    returns no entry. *)
Lemma Resources_short_counterexample :
  NoDup (map Resource.Identifier (Resources_ (manifest ccMissingPage)))
  /\ Resources fixtureXML ccMissingPage
     = ([], Some (OfArchive (ErrNotExist "web/page.html")))
  /\ List.length (fst (Resources fixtureXML ccMissingPage))
     <> List.length (Resources_ (manifest ccMissingPage)).
Proof.
  split; [|split].
  - simpl. constructor; [intros [] | constructor].
  - reflexivity.
  - discriminate.
Defined.

Lemma Resources_one_entry_each_witness :
  List.length (fst (Resources fixtureXML ccCourse)) = 4
  /\ Resources fixtureXML ccMissingPage
     = ([], Some (OfArchive (ErrNotExist "web/page.html"))).
Proof.
  split.
  - refine (proj2 (proj1 (Resources_one_entry_each fixtureXML ccCourse _) _)).
    + simpl. repeat constructor; simpl; intuition discriminate.
    + intros r Hin. simpl in Hin.
      repeat (destruct Hin as [<-|Hin]; [reflexivity|]). destruct Hin.
  - refine (proj2 (Resources_one_entry_each fixtureXML ccMissingPage _)
              [] missingPageResource []
              (OfArchive (ErrNotExist "web/page.html")) _ _ _).
    + simpl. repeat constructor. intros [].
    + reflexivity.
    + intros p [].
    + reflexivity.
Defined.

(** In the course fixture [res1] is referred to by the module, an
    immediate child of the root, and by a lesson below it: it is paired
    with the lesson.  [res2] is referred to by the page, two levels below
    the module.  [res3] is referred to by the locked module alone, an
    immediate child of the root, and [res1_extra] by no item (its
    identifier merely contains [res1]): both get the zero Item. *)
Example Resources_course :
  map (fun fr => Item.Identifier (FullResource_Item fr))
    (fst (Resources fixtureXML ccCourse))
  = ["i5"; "i4"; ""; ""].
Proof. reflexivity. Qed.

(** ** FindFile *)

Section FindFileProperties.

Variable cc : IMSCC.

(** With at least one file listed, [FindFile] opens the first one. *)
Lemma FindFile_first_file (pre post : list Resource.t) (r : Resource.t)
  (f : Resource.File) (fs : list Resource.File) :
  Resources_ (manifest cc) = pre ++ r :: post ->
  (forall p, In p pre -> Resource.Identifier p <> Resource.Identifier r) ->
  Resource.File_ r = f :: fs ->
  FindFile cc (Resource.Identifier r)
  = match Open (Reader_ cc) (Resource.FileHref f) with
    | inl err => Returns (None, Some (OfArchive err))
    | inr file => Returns (Some file, None)
    end.
Proof.
  intros Hrs Hpre Hf. unfold FindFile. rewrite Hrs. clear Hrs.
  induction pre as [|p pre IH]; simpl.
  - now rewrite String.eqb_refl, Hf.
  - destruct (String.eqb_spec (Resource.Identifier p) (Resource.Identifier r))
      as [E|_].
    + exfalso. apply (Hpre p); [now left | exact E].
    + apply IH. intros q Hq. apply Hpre. now right.
Qed.

Lemma FindFile_absent (id : string) :
  (forall r, In r (Resources_ (manifest cc)) -> Resource.Identifier r <> id) ->
  FindFile cc id = Returns (None, Some (CouldntFindFile id)).
Proof.
  unfold FindFile. induction (Resources_ (manifest cc)) as [|r rs IH];
    intros Habs; simpl; [reflexivity|].
  destruct (String.eqb_spec (Resource.Identifier r) id) as [E|_].
  - exfalso. apply (Habs r); [now left | exact E].
  - apply IH. intros q Hq. apply Habs. now right.
Qed.

(** With no file listed, [r.File[0]] is out of range. *)
Lemma FindFile_no_file (pre post : list Resource.t) (r : Resource.t) :
  Resources_ (manifest cc) = pre ++ r :: post ->
  (forall p, In p pre -> Resource.Identifier p <> Resource.Identifier r) ->
  Resource.File_ r = [] ->
  FindFile cc (Resource.Identifier r) = Panics 0 0.
Proof.
  intros Hrs Hpre Hf. unfold FindFile. rewrite Hrs. clear Hrs.
  induction pre as [|p pre IH]; simpl.
  - now rewrite String.eqb_refl, Hf.
  - destruct (String.eqb_spec (Resource.Identifier p) (Resource.Identifier r))
      as [E|_].
    + exfalso. apply (Hpre p); [now left | exact E].
    + apply IH. intros q Hq. apply Hpre. now right.
Qed.

End FindFileProperties.

(** C6 (the code panics on an empty file list).  The catalog holds a
    resource with neither href nor files: [Find] returns it as it is,
    [FindFile] indexes its empty file list and panics. *)
Theorem FindFile_panics_without_files :
  Resource.File_ filelessResource = []
  /\ Find fixtureXML ccFileless "lti1" = (FoundResource filelessResource, None)
  /\ FindFile ccFileless "lti1" = Panics 0 0.
Proof. repeat split. Qed.

(** ** Loading *)

Section LoadProperties.

Variable xml : XMLDecoder.
Variable OpenReader : string -> ArchiveError + Reader.

Lemma manifestPath_none (files : list zipFile) :
  (forall f, In f files -> Contains (Name_ f) "imsmanifest.xml" = false) ->
  manifestPath files = "".
Proof.
  induction files as [|f files IH]; intros Hnone; [reflexivity|].
  cbn [manifestPath]. rewrite (Hnone f (or_introl eq_refl)).
  apply IH. intros g Hg. apply Hnone. now right.
Qed.

Lemma manifestPath_first (pre post : list zipFile) (f : zipFile) :
  (forall g, In g pre -> Contains (Name_ g) "imsmanifest.xml" = false) ->
  Contains (Name_ f) "imsmanifest.xml" = true ->
  manifestPath (pre ++ f :: post) = Name_ f.
Proof.
  induction pre as [|g pre IH]; intros Hpre Hf.
  - cbn [app manifestPath]. now rewrite Hf.
  - cbn [app manifestPath]. rewrite (Hpre g (or_introl eq_refl)).
    apply IH; [|exact Hf]. intros h Hh. apply Hpre. now right.
Qed.

(** [parseManifest] never returns a decoder error. *)
Lemma parseManifest_never_xml_error (cc : IMSCC) (e : XMLError) :
  snd (parseManifest xml cc) <> Some (OfXML e).
Proof.
  unfold parseManifest.
  destruct (Open (Reader_ cc) _) as [a|f]; [discriminate|].
  destruct (ReadAll f); discriminate.
Qed.

(** C8, as the code has it.  On an archive that opens: when no entry name
    contains [imsmanifest.xml], [Load] asks the reader for the empty
    name and fails with the error the reader gives for it; when the
    first entry whose name contains [imsmanifest.xml] opens and reads,
    [Load] returns no error and the manifest as the decoder left it,
    whether or not the decoder accepted the content. *)
Theorem Load_manifest_entry (path : string) (rd : Reader) :
  OpenReader path = inr rd ->
  ((forall f, In f (File rd) -> Contains (Name_ f) "imsmanifest.xml" = false) ->
   forall e,
     Open rd "" = inl e ->
     Load xml OpenReader path
     = ({| Reader_ := rd; Path := path; manifest := zeroManifest |},
        Some (OfArchive e)))
  /\ (forall pre f post file bytes,
        File rd = pre ++ f :: post ->
        (forall g, In g pre -> Contains (Name_ g) "imsmanifest.xml" = false) ->
        Contains (Name_ f) "imsmanifest.xml" = true ->
        Open rd (Name_ f) = inr file ->
        ReadAll file = inr bytes ->
        Load xml OpenReader path
        = ({| Reader_ := rd; Path := path;
              manifest := fst (UnmarshalManifest xml bytes) |},
           None)).
Proof.
  intros Hopen. unfold Load, parseManifest. rewrite Hopen. simpl. split.
  - intros Hnone e He. rewrite (manifestPath_none _ Hnone), He. reflexivity.
  - intros pre f post file bytes Hfiles Hpre Hf Ho Hr.
    rewrite Hfiles, (manifestPath_first pre post f Hpre Hf), Ho, Hr.
    reflexivity.
Qed.

End LoadProperties.

(** C8 fails as stated: the manifest entry of [broken.imscc] is not XML
    and the decoder rejects it, yet [Load] returns a nil error (and the
    zero manifest). *)
Lemma Load_malformed_counterexample :
  snd (UnmarshalManifest fixtureXML "not xml")
  = Some (UnmarshalError "expected element type <manifest>")
  /\ Load fixtureXML fixtureOpenReader "broken.imscc"
     = ({| Reader_ := zipOf [("course/imsmanifest.xml", "not xml")];
           Path := "broken.imscc";
           manifest := zeroManifest |},
        None).
Proof. split; reflexivity. Defined.

Lemma Load_manifest_entry_witness :
  Load fixtureXML fixtureOpenReader "empty.imscc"
  = ({| Reader_ := zipOf [("readme.txt", "hello")]; Path := "empty.imscc";
        manifest := zeroManifest |},
     Some (OfArchive (ErrInvalid ""))).
Proof.
  apply (Load_manifest_entry fixtureXML fixtureOpenReader "empty.imscc"
           (zipOf [("readme.txt", "hello")])).
  - reflexivity.
  - intros f [<-|[]]. reflexivity.
  - reflexivity.
Defined.

(** ** Per-family listers *)

Section ListerProperties.

Variable xml : XMLDecoder.
Variable cc : IMSCC.

(** The loop only ever appends values that [keep] accepts. *)
Lemma decodeEach_keeps (A : Type) (decode : string -> A * option XMLError)
  (keep : A -> bool) (paths : list string) :
  forall acc,
    Forall (fun v => keep v = true) acc ->
    Forall (fun v => keep v = true) (fst (decodeEach decode keep cc paths acc)).
Proof.
  induction paths as [|p paths IH]; intros acc Hacc; simpl; [exact Hacc|].
  destruct (Open (Reader_ cc) p) as [e|f]; [exact Hacc|].
  destruct (ReadAll f) as [e|bytes]; [exact Hacc|].
  apply IH. destruct (keep (fst (decode bytes))) eqn:Hk; [|exact Hacc].
  apply Forall_app. split; [exact Hacc|]. now constructor.
Qed.

Lemma lister_keeps (A : Type) (pattern : Regexp)
  (decode : string -> A * option XMLError) (keep : A -> bool) :
  Forall (fun v => keep v = true) (fst (lister pattern decode keep cc)).
Proof. unfold lister. simpl. apply decodeEach_keeps. constructor. Qed.

(** [Assignments] and [QTIs] check the root element. *)
Lemma Assignments_root (a : Assignment) :
  In a (fst (Assignments xml cc)) -> Local (AssignmentXMLName a) = "assignment".
Proof.
  intros Hin. apply String.eqb_eq.
  exact (proj1 (Forall_forall _ _) (lister_keeps _ _ _ _) a Hin).
Qed.

Lemma QTIs_root (q : Questestinterop) :
  In q (fst (QTIs xml cc)) -> Local (QtiXMLName q) = "questestinterop".
Proof.
  intros Hin. apply String.eqb_eq.
  exact (proj1 (Forall_forall _ _) (lister_keeps _ _ _ _) q Hin).
Qed.

End ListerProperties.

(** C9 ([Weblinks], like [Topics] and [LTIs], does not check the root
    element).  The web link resource lists a companion HTML file after its
    structured file; [Weblinks] decodes both and returns both, the second
    a WebLink whose root name is empty. *)
Theorem Weblinks_keeps_companion_file :
  fst (findResourcesByType ccWeblink (FamilyDigit "imswl_xmlv1p"))
  = ["wl1/link.xml"; "wl1/link_meta.html"]
  /\ Weblinks fixtureXML ccWeblink
     = ([webLinkNamed {| Space := ""; Local := "webLink" |};
         webLinkNamed zeroName],
        None)
  /\ Local (WebLinkXMLName (webLinkNamed zeroName)) <> "webLink".
Proof. repeat split. discriminate. Qed.

(** * Further properties *)

(** ** The item tree *)

Section ItemsTree.

Variable cc : IMSCC.

Lemma map_Item_fullOf (items : list Item.t) :
  map FullItem_Item (map (fullOf cc) items) = items.
Proof.
  induction items as [|x items IH]; simpl; [reflexivity|].
  rewrite IH. now destruct (fullOf_fields cc x) as [-> _].
Qed.

(** A FullItem of the tree is the FullItem of its own item. *)
Lemma node_is_fullOf (f : FullItem) :
  In f (flat_map nodes (fst (Items cc))) ->
  f = fullOf cc (FullItem_Item f)
  /\ In (FullItem_Item f)
       (flat_map subitems (Item.Item (OrganizationItem (manifest cc)))).
Proof.
  rewrite nodes_Items, in_map_iff. intros [x [<- Hx]].
  now destruct (fullOf_fields cc x) as [-> _].
Qed.

(** [Items] never returns an error, so the branch of [traverseItems] that
    drops the remaining children is never taken; it returns one FullItem
    per immediate child of the root item, in order. *)
Theorem Items_one_per_top_item :
  snd (Items cc) = None
  /\ map FullItem_Item (fst (Items cc))
     = Item.Item (OrganizationItem (manifest cc)).
Proof.
  rewrite Items_fullOf. split; [reflexivity|]. apply map_Item_fullOf.
Qed.

(** The tree [Items] returns mirrors the item tree: its FullItems, in
    document order, are those of the items below the root item, and the
    children of each FullItem are those of its item, in order. *)
Theorem Items_mirrors_tree :
  map FullItem_Item (flat_map nodes (fst (Items cc)))
  = flat_map subitems (Item.Item (OrganizationItem (manifest cc)))
  /\ Forall
       (fun f => map FullItem_Item (Children f) = Item.Item (FullItem_Item f))
       (flat_map nodes (fst (Items cc))).
Proof.
  split.
  - rewrite nodes_Items. apply map_Item_fullOf.
  - apply Forall_forall. intros f Hf.
    destruct (node_is_fullOf f Hf) as [Hf' _]. rewrite Hf' at 1.
    destruct (fullOf_fields cc (FullItem_Item f)) as [_ [_ ->]].
    apply map_Item_fullOf.
Qed.

Lemma append_empty_r (s : string) : (s ++ "")%string = s.
Proof. induction s as [|c s IH]; simpl; [reflexivity | now rewrite IH]. Qed.

Lemma Contains_self (s : string) : Contains s s = true.
Proof.
  apply Contains_spec. exists "", "". simpl. now rewrite append_empty_r.
Qed.

(** What [traverseItems] attaches to an item with an identifierref. *)
Lemma referring_filter (x : Item.t) :
  Item.Identifierref x <> "" ->
  referring cc x
  = filter (fun r => Contains (Resource.Identifier r) (Item.Identifierref x))
      (Resources_ (manifest cc)).
Proof.
  intros Hne. unfold referring.
  destruct (String.eqb_spec (Item.Identifierref x) ""); [contradiction|].
  simpl. now rewrite appendReferring_filter.
Qed.

Lemma referring_exact (x : Item.t) (r : Resource.t) :
  In r (Resources_ (manifest cc)) ->
  Item.Identifierref x <> "" ->
  Resource.Identifier r = Item.Identifierref x ->
  In r (referring cc x).
Proof.
  intros Hr Hne Heq. rewrite (referring_filter x Hne). apply filter_In.
  split; [exact Hr|]. rewrite Heq. apply Contains_self.
Qed.

(** A catalog resource whose identifier is equal to the non-empty
    identifierref of an item is attached to that item's FullItem. *)
Theorem Items_attaches_exact_reference (f : FullItem) (r : Resource.t) :
  In f (flat_map nodes (fst (Items cc))) ->
  In r (Resources_ (manifest cc)) ->
  Item.Identifierref (FullItem_Item f) <> "" ->
  Resource.Identifier r = Item.Identifierref (FullItem_Item f) ->
  In r (FullItem_Resources f).
Proof.
  intros Hf Hr Hne Heq. destruct (node_is_fullOf f Hf) as [Hf' _].
  rewrite Hf'. destruct (fullOf_fields cc (FullItem_Item f)) as [_ [-> _]].
  now apply referring_exact.
Qed.

(** Every resource attached to a FullItem is a catalog resource, the
    item's identifierref is not empty, and it occurs inside the
    resource's identifier. *)
Theorem Items_attached_contain_reference (f : FullItem) (r : Resource.t) :
  In f (flat_map nodes (fst (Items cc))) ->
  In r (FullItem_Resources f) ->
  In r (Resources_ (manifest cc))
  /\ Item.Identifierref (FullItem_Item f) <> ""
  /\ exists pre post,
       Resource.Identifier r
       = (pre ++ Item.Identifierref (FullItem_Item f) ++ post)%string.
Proof.
  intros Hf. destruct (node_is_fullOf f Hf) as [Hf' _].
  rewrite Hf' at 1. destruct (fullOf_fields cc (FullItem_Item f)) as [_ [-> _]].
  destruct (String.eqb_spec (Item.Identifierref (FullItem_Item f)) "") as [E|NE].
  - unfold referring. rewrite E. simpl. intros [].
  - rewrite (referring_filter _ NE), filter_In.
    intros [Hr Hc]. repeat split; [exact Hr | exact NE |].
    now apply Contains_spec.
Qed.

Lemma belowTop_subitems (x : Item.t) :
  In x (belowTop cc) ->
  In x (flat_map subitems (Item.Item (OrganizationItem (manifest cc)))).
Proof.
  unfold belowTop. rewrite !in_flat_map. intros [top [Htop Hx]].
  exists top. split; [exact Htop|]. rewrite subitems_unfold. now right.
Qed.

(** [FindItem] and [Items] agree: when [FindItem] returns an item other
    than the zero Item for the non-empty identifier of a catalog resource,
    the tree of [Items] has the FullItem of that item, and the resource is
    attached to it. *)
Theorem FindItem_item_holds_resource (r : Resource.t) :
  In r (Resources_ (manifest cc)) ->
  Resource.Identifier r <> "" ->
  fst (FindItem cc (Resource.Identifier r)) <> Item.zero ->
  exists f,
    In f (flat_map nodes (fst (Items cc)))
    /\ FullItem_Item f = fst (FindItem cc (Resource.Identifier r))
    /\ In r (FullItem_Resources f).
Proof.
  intros Hr Hid Hnz.
  destruct (FindItem_inv (Resource.Identifier r) cc) as [_ [Hz|[Href Hbelow]]];
    [contradiction|].
  set (it := fst (FindItem cc (Resource.Identifier r))) in *.
  destruct (fullOf_fields cc it) as [Hitem [Hres _]].
  exists (fullOf cc it). split; [|split; [exact Hitem|]].
  - rewrite nodes_Items. apply in_map. now apply belowTop_subitems.
  - rewrite Hres. apply referring_exact; [exact Hr | congruence | now rewrite Href].
Qed.

End ItemsTree.

Lemma Items_attaches_exact_reference_witness :
  In (Resource.mk "res2" "imswl_xmlv1p1" "" [file "res2/link.xml"])
    (FullItem_Resources (fullOf ccCourse pageItem)).
Proof.
  apply (Items_attaches_exact_reference ccCourse (fullOf ccCourse pageItem)).
  - vm_compute. auto 10.
  - vm_compute. auto 10.
  - discriminate.
  - reflexivity.
Defined.

Lemma Items_attached_contain_reference_witness :
  In (Resource.mk "res1_extra" "webcontent" "" []) (Resources_ (manifest ccCourse))
  /\ Item.Identifierref (FullItem_Item (fullOf ccCourse moduleItem)) <> ""
  /\ exists pre post,
       Resource.Identifier (Resource.mk "res1_extra" "webcontent" "" [])
       = (pre ++ Item.Identifierref (FullItem_Item (fullOf ccCourse moduleItem))
              ++ post)%string.
Proof.
  apply (Items_attached_contain_reference ccCourse (fullOf ccCourse moduleItem)).
  - vm_compute. auto 10.
  - vm_compute. auto 10.
Defined.

Lemma FindItem_item_holds_resource_witness :
  exists f,
    In f (flat_map nodes (fst (Items ccCourse)))
    /\ FullItem_Item f = fst (FindItem ccCourse "res2")
    /\ In (Resource.mk "res2" "imswl_xmlv1p1" "" [file "res2/link.xml"])
         (FullItem_Resources f).
Proof.
  apply (FindItem_item_holds_resource ccCourse
           (Resource.mk "res2" "imswl_xmlv1p1" "" [file "res2/link.xml"])).
  - vm_compute. auto 10.
  - discriminate.
  - discriminate.
Defined.

(** ** More on Find *)

Section FindResults.

Variable xml : XMLDecoder.

Lemma findIn_error (cc : IMSCC) (rs : list Resource.t) (id : string) (e : Error) :
  snd (findIn xml cc rs id) = Some e ->
  exists r,
    fst (findIn xml cc rs id) = FoundResource r
    /\ ((e = CouldNotFindResource id /\ r = Resource.zero)
        \/ (In r rs /\ Resource.Identifier r = id
            /\ (e = NoMatchingType (Resource.Type_ r)
                \/ exists a, e = OfArchive a))).
Proof.
  induction rs as [|r rs IH]; simpl.
  - intros [= <-]. exists Resource.zero. split; [reflexivity | now left].
  - destruct (String.eqb_spec (Resource.Identifier r) id) as [E|_].
    + unfold resolve.
      destruct (backingPath r =? ""); [discriminate|].
      destruct (Open (Reader_ cc) (backingPath r)) as [a|f].
      * simpl. intros [= <-]. exists r. split; [reflexivity|]. right.
        repeat split; [now left | exact E | right; now exists a].
      * destruct (ReadAll f) as [a|bytes].
        -- simpl. intros [= <-]. exists r. split; [reflexivity|]. right.
           repeat split; [now left | exact E | right; now exists a].
        -- intros He. destruct (decodeAs_error xml r bytes) as [H|H];
             rewrite H in He; [discriminate|]. injection He as <-.
           exists r. split.
           ++ revert H. unfold decodeAs.
              repeat match goal with
                | |- context [if oneOf ?ty ?labels then _ else _] =>
                    destruct (oneOf ty labels)
                | |- context [let '(_, _) := ?d in _] =>
                    let v := fresh "v" in let x := fresh "x" in
                    destruct d as [v [x|]]
                end; simpl; try discriminate; reflexivity.
           ++ right. repeat split; [now left | exact E | now left].
    + intros He. destruct (IH He) as [q [Hq Hcases]]. exists q.
      split; [exact Hq|].
      destruct Hcases as [Hnf|[Hin Hrest]]; [now left|].
      right. split; [now right | exact Hrest].
Qed.

(** Whenever [Find] returns an error, the value beside it is a raw
    Resource: the zero Resource with the error of a missing identifier,
    or the catalog resource carrying the identifier with an archive error
    or the error [no matching type found] for its own type tag. *)
Theorem Find_error_returns_raw (cc : IMSCC) (id : string) (e : Error) :
  snd (Find xml cc id) = Some e ->
  exists r,
    fst (Find xml cc id) = FoundResource r
    /\ ((e = CouldNotFindResource id /\ r = Resource.zero)
        \/ (In r (Resources_ (manifest cc)) /\ Resource.Identifier r = id
            /\ (e = NoMatchingType (Resource.Type_ r)
                \/ exists a, e = OfArchive a))).
Proof. apply findIn_error. Qed.

Lemma oneOf_In (ty : string) (labels : list string) :
  oneOf ty labels = true -> In ty labels.
Proof.
  unfold oneOf. rewrite existsb_exists. intros [l [Hl He]].
  apply String.eqb_eq in He. now subst.
Qed.

(** In the [switch] each tag of a decoded family leads to the decoder of
    that family, and the value is returned as the decoder left it. *)
Lemma decodeAs_family (r : Resource.t) (bytes : string) :
  (oneOf (Resource.Type_ r) topicTypes = true ->
   decodeAs xml r bytes = (FoundTopic (fst (UnmarshalTopic xml bytes)), None))
  /\ (oneOf (Resource.Type_ r) weblinkTypes = true ->
      decodeAs xml r bytes = (FoundWebLink (fst (UnmarshalWebLink xml bytes)), None))
  /\ (oneOf (Resource.Type_ r) assignmentTypes = true ->
      decodeAs xml r bytes
      = (FoundAssignment (fst (UnmarshalAssignment xml bytes)), None))
  /\ (oneOf (Resource.Type_ r) qtiTypes = true ->
      decodeAs xml r bytes = (FoundQTI (fst (UnmarshalQTI xml bytes)), None))
  /\ (oneOf (Resource.Type_ r) ltiTypes = true ->
      decodeAs xml r bytes = (FoundLTI (fst (UnmarshalLTI xml bytes)), None)).
Proof.
  repeat split; intros H; apply oneOf_In in H; simpl in H;
    repeat (destruct H as [H|H]); try contradiction;
    unfold decodeAs; rewrite <- H; simpl;
    match goal with
    | |- context [let '(_, _) := ?d in _] => destruct d as [v [x|]]
    end; reflexivity.
Qed.

(** When the backing file of a resource opens and reads, the variant
    [Find] returns is the one of the resource's type tag (a Topic for a
    topic tag, a WebLink for a web link tag, and so on), holding what the
    decoder left, with a nil error. *)
Theorem Find_variant_by_tag (cc : IMSCC) (pre post : list Resource.t)
  (r : Resource.t) (f : fsFile) (bytes : string) :
  Resources_ (manifest cc) = pre ++ r :: post ->
  (forall p, In p pre -> Resource.Identifier p <> Resource.Identifier r) ->
  backingPath r <> "" ->
  Open (Reader_ cc) (backingPath r) = inr f ->
  ReadAll f = inr bytes ->
  (oneOf (Resource.Type_ r) topicTypes = true ->
   Find xml cc (Resource.Identifier r)
   = (FoundTopic (fst (UnmarshalTopic xml bytes)), None))
  /\ (oneOf (Resource.Type_ r) weblinkTypes = true ->
      Find xml cc (Resource.Identifier r)
      = (FoundWebLink (fst (UnmarshalWebLink xml bytes)), None))
  /\ (oneOf (Resource.Type_ r) assignmentTypes = true ->
      Find xml cc (Resource.Identifier r)
      = (FoundAssignment (fst (UnmarshalAssignment xml bytes)), None))
  /\ (oneOf (Resource.Type_ r) qtiTypes = true ->
      Find xml cc (Resource.Identifier r)
      = (FoundQTI (fst (UnmarshalQTI xml bytes)), None))
  /\ (oneOf (Resource.Type_ r) ltiTypes = true ->
      Find xml cc (Resource.Identifier r)
      = (FoundLTI (fst (UnmarshalLTI xml bytes)), None)).
Proof.
  intros Hrs Hpre Hpath Ho Hr. unfold Find.
  rewrite Hrs, (findIn_first xml cc pre post r Hpre). unfold resolve.
  destruct (String.eqb_spec (backingPath r) ""); [contradiction|].
  rewrite Ho, Hr. apply decodeAs_family.
Qed.

Lemma resolve_same_reader (cc cc' : IMSCC) (r : Resource.t) :
  Reader_ cc = Reader_ cc' -> resolve xml cc r = resolve xml cc' r.
Proof. intros H. unfold resolve. now rewrite H. Qed.

(** The first resource carrying the identifier decides: on two cartridges
    over the same archive whose catalogs agree up to and including that
    resource, [Find] returns the same, whatever follows it in either
    catalog. *)
Theorem Find_ignores_later_resources (cc cc' : IMSCC)
  (pre post post' : list Resource.t) (r : Resource.t) :
  Reader_ cc = Reader_ cc' ->
  Resources_ (manifest cc) = pre ++ r :: post ->
  Resources_ (manifest cc') = pre ++ r :: post' ->
  Find xml cc (Resource.Identifier r) = Find xml cc' (Resource.Identifier r).
Proof.
  intros Hrd Hrs Hrs'. unfold Find. rewrite Hrs, Hrs'. clear Hrs Hrs'.
  induction pre as [|p pre IH]; simpl.
  - rewrite String.eqb_refl. now apply resolve_same_reader.
  - destruct (Resource.Identifier p =? Resource.Identifier r);
      [now apply resolve_same_reader | exact IH].
Qed.

End FindResults.

Lemma Find_error_returns_raw_witness :
  exists r,
    fst (Find fixtureXML ccQuestionBank "qb1") = FoundResource r
    /\ ((NoMatchingType "imsqti_xmlv1p2/imscc_xmlv1p1/question-bank"
         = CouldNotFindResource "qb1" /\ r = Resource.zero)
        \/ (In r (Resources_ (manifest ccQuestionBank))
            /\ Resource.Identifier r = "qb1"
            /\ (NoMatchingType "imsqti_xmlv1p2/imscc_xmlv1p1/question-bank"
                = NoMatchingType (Resource.Type_ r)
                \/ exists a,
                     NoMatchingType "imsqti_xmlv1p2/imscc_xmlv1p1/question-bank"
                     = OfArchive a))).
Proof.
  apply (Find_error_returns_raw fixtureXML ccQuestionBank "qb1"). reflexivity.
Defined.

Lemma Find_variant_by_tag_witness :
  Find fixtureXML ccQuiz "q1"
  = (FoundQTI (fst (UnmarshalQTI fixtureXML "<questestinterop></questestinterop>")),
     None).
Proof.
  apply (Find_variant_by_tag fixtureXML ccQuiz [] [] quizResource
           {| ReadAll := inr "<questestinterop></questestinterop>" |}
           "<questestinterop></questestinterop>").
  - reflexivity.
  - intros p [].
  - discriminate.
  - reflexivity.
  - reflexivity.
  - reflexivity.
Defined.

Lemma Find_ignores_later_resources_witness :
  Find fixtureXML ccQuiz "q1"
  = Find fixtureXML
      (cartridgeOf [("q1/assessment.xml", "<questestinterop></questestinterop>")]
         Item.zero [quizResource; Resource.mk "q1" "webcontent" "" []])
      "q1".
Proof.
  apply (Find_ignores_later_resources fixtureXML ccQuiz
           (cartridgeOf
              [("q1/assessment.xml", "<questestinterop></questestinterop>")]
              Item.zero [quizResource; Resource.mk "q1" "webcontent" "" []])
           [] [] [Resource.mk "q1" "webcontent" "" []] quizResource);
    reflexivity.
Defined.

(** ** More on FindItem *)

Section FindItemSearch.

Variable id : string.

Lemma findItemLoop_direct (below : Item.t -> Item.t * option Error)
  (pre post : list Item.t) (x : Item.t) :
  (forall p, In p pre -> Item.Identifierref p <> id) ->
  Item.Identifierref x = id ->
  forall item err,
    findItemLoop below id (pre ++ x :: post) item err = (x, None).
Proof.
  intros Hpre Hx. induction pre as [|p pre IH]; intros item err; simpl.
  - now rewrite Hx, String.eqb_refl.
  - destruct (String.eqb_spec (Item.Identifierref p) id) as [E|_].
    + exfalso. apply (Hpre p); [now left | exact E].
    + assert (Hrest : forall q, In q pre -> Item.Identifierref q <> id)
        by (intros q Hq; apply Hpre; now right).
      destruct (0 <? List.length (Item.Item p))%nat.
      * destruct (below p) as [item' err']. now apply IH.
      * now apply IH.
Qed.

(** [findItem] returns the first item of the list whose identifierref is
    the identifier, whatever the items before it have below them. *)
Theorem findItem_first_direct_match (pre post : list Item.t) (x : Item.t) :
  (forall p, In p pre -> Item.Identifierref p <> id) ->
  Item.Identifierref x = id ->
  findItem (pre ++ x :: post) id = (x, None).
Proof. intros Hpre Hx. unfold findItem. now apply findItemLoop_direct. Qed.

Lemma findItemLoop_no_direct (below : Item.t -> Item.t * option Error)
  (items : list Item.t) :
  (forall x, In x items -> Item.Identifierref x <> id) ->
  forall item err,
    findItemLoop below id items item err
    = match lastWithChildren items with
      | Some x => below x
      | None => (item, err)
      end.
Proof.
  induction items as [|x items IH]; intros Hno item err; [reflexivity|].
  assert (Hrest : forall y, In y items -> Item.Identifierref y <> id)
    by (intros y Hy; apply Hno; now right).
  cbn [findItemLoop lastWithChildren].
  destruct (String.eqb_spec (Item.Identifierref x) id) as [E|_].
  - exfalso. apply (Hno x); [now left | exact E].
  - destruct (0 <? List.length (Item.Item x))%nat.
    + destruct (below x) as [item' err'] eqn:Hb. rewrite (IH Hrest).
      now destruct (lastWithChildren items).
    + rewrite (IH Hrest). now destruct (lastWithChildren items).
Qed.

(** When no item of the list has the identifier as its identifierref,
    [findItem] returns what the search below the last item with children
    returns (the searches below the earlier items are overwritten), and
    the zero Item when no item has children. *)
Theorem findItem_without_direct_match (items : list Item.t) :
  (forall x, In x items -> Item.Identifierref x <> id) ->
  findItem items id
  = match lastWithChildren items with
    | Some x => findItem (Item.Item x) id
    | None => (Item.zero, None)
    end.
Proof.
  intros Hno. unfold findItem at 1. rewrite (findItemLoop_no_direct _ _ Hno).
  destruct (lastWithChildren items) as [x|]; [|reflexivity].
  symmetry. apply findItem_below.
Qed.

Lemma first_match_split (items : list Item.t) (x : Item.t) :
  In x items -> Item.Identifierref x = id ->
  exists pre y post,
    items = pre ++ y :: post
    /\ Item.Identifierref y = id
    /\ forall p, In p pre -> Item.Identifierref p <> id.
Proof.
  induction items as [|z items IH]; intros Hin Hx; [destruct Hin|].
  destruct (String.eqb_spec (Item.Identifierref z) id) as [E|NE].
  - exists [], z, items. repeat split; [exact E | intros p []].
  - destruct Hin as [->|Hin]; [contradiction|].
    destruct (IH Hin Hx) as [pre [y [post [-> [Hy Hpre]]]]].
    exists (z :: pre), y, post. repeat split; [exact Hy|].
    intros p [<-|Hp]; [exact NE | now apply Hpre].
Qed.

Lemma FindItemFrom_second_level (tops : list Item.t) (top x : Item.t) :
  In top tops -> In x (Item.Item top) -> Item.Identifierref x = id ->
  forall item err,
    Item.Identifierref (fst (FindItemFrom tops id item err)) = id.
Proof.
  induction tops as [|t tops IH]; intros Htop Hx Hid item err; [destruct Htop|].
  simpl.
  pose proof (findItemBelow_inv id t (flat_map subitems (Item.Item t))
                (incl_refl _)) as [Herr _].
  rewrite <- findItem_below in Herr.
  destruct (findItem (Item.Item t) id) as [item' err'] eqn:Hfind.
  simpl in Herr. subst err'.
  destruct (String.eqb_spec (Item.Identifierref item') id) as [E|NE];
    [exact E|].
  destruct Htop as [->|Htop]; [|now apply IH].
  exfalso. destruct (first_match_split _ _ Hx Hid) as [pre [y [post [Hl [Hy Hpre]]]]].
  rewrite Hl in Hfind. unfold findItem in Hfind.
  rewrite (findItemLoop_direct _ pre post y Hpre Hy) in Hfind.
  injection Hfind as <-. contradiction.
Qed.

(** When some child of an immediate child of the root item has the
    identifier as its identifierref, [FindItem] returns an item whose
    identifierref is the identifier; for a non-empty identifier it is an
    item strictly below the immediate children of the root item. *)
Theorem FindItem_second_level (cc : IMSCC) (top x : Item.t) :
  In top (Item.Item (OrganizationItem (manifest cc))) ->
  In x (Item.Item top) ->
  Item.Identifierref x = id ->
  Item.Identifierref (fst (FindItem cc id)) = id
  /\ (id <> "" -> In (fst (FindItem cc id)) (belowTop cc)).
Proof.
  intros Htop Hx Hid.
  assert (Href : Item.Identifierref (fst (FindItem cc id)) = id)
    by (unfold FindItem; now apply FindItemFrom_second_level with top x).
  split; [exact Href|]. intros Hne.
  destruct (FindItem_inv id cc) as [_ [Hz|[_ Hin]]]; [|exact Hin].
  rewrite Hz in Href. simpl in Href. congruence.
Qed.

End FindItemSearch.

(** In the course fixture the page referring to [res2] lies below the
    folder; were the lesson after the folder to have children, the search
    below the folder would be overwritten. *)
Example findItem_overwritten :
  findItem [folderItem; Item.mk "i5" "res1" "Lesson" [Item.mk "i6" "" "Note" []]]
    "res2"
  = (Item.zero, None).
Proof. reflexivity. Qed.

Lemma findItem_first_direct_match_witness :
  findItem ([folderItem] ++ lessonItem :: []) "res1" = (lessonItem, None).
Proof.
  apply (findItem_first_direct_match "res1" [folderItem] [] lessonItem).
  - intros p [<-|[]]. discriminate.
  - reflexivity.
Defined.

Lemma findItem_without_direct_match_witness :
  findItem [folderItem; lessonItem] "res2" = findItem (Item.Item folderItem) "res2".
Proof.
  apply (findItem_without_direct_match "res2" [folderItem; lessonItem]).
  intros x [<-|[<-|[]]]; discriminate.
Defined.

Lemma FindItem_second_level_witness :
  Item.Identifierref (fst (FindItem ccCourse "res1")) = "res1"
  /\ ("res1" <> "" -> In (fst (FindItem ccCourse "res1")) (belowTop ccCourse)).
Proof.
  apply (FindItem_second_level "res1" ccCourse moduleItem lessonItem).
  - simpl. auto.
  - simpl. auto.
  - reflexivity.
Defined.

(** ** More on Resources *)

Section ResourcesErrors.

Variable xml : XMLDecoder.
Variable cc : IMSCC.

Lemma resourcesFrom_error (rs : list Resource.t) :
  forall acc entries e,
    resourcesFrom xml cc rs acc = (entries, Some e) ->
    exists done r rest,
      rs = done ++ r :: rest
      /\ (forall p, In p done -> snd (Find xml cc (Resource.Identifier p)) = None)
      /\ snd (Find xml cc (Resource.Identifier r)) = Some e
      /\ entries = acc ++ map (entryOf xml cc) done.
Proof.
  induction rs as [|r rs IH]; intros acc entries e; simpl; [discriminate|].
  pose proof (FindItem_no_error cc (Resource.Identifier r)) as Hi.
  destruct (Find xml cc (Resource.Identifier r)) as [found [e'|]] eqn:Hf.
  - intros [= <- <-]. exists [], r, rs. repeat split.
    + intros p [].
    + now rewrite Hf.
    + simpl. now rewrite app_nil_r.
  - destruct (FindItem cc (Resource.Identifier r)) as [item err'] eqn:Hit.
    simpl in Hi. subst err'. intros Hrest.
    destruct (IH _ _ _ Hrest) as [done [q [rest [-> [Hdone [Hq ->]]]]]].
    exists (r :: done), q, rest. repeat split.
    + intros p [<-|Hp]; [now rewrite Hf | now apply Hdone].
    + exact Hq.
    + rewrite <- app_assoc. simpl. unfold entryOf at 2. now rewrite Hf, Hit.
Qed.

(** When [Resources] returns an error it is the error of [Find] on the
    first catalog resource that does not resolve, and the entries beside
    it are those of the resources before that one, in order. *)
Theorem Resources_error_prefix (entries : list FullResource) (e : Error) :
  Resources xml cc = (entries, Some e) ->
  exists done r rest,
    Resources_ (manifest cc) = done ++ r :: rest
    /\ (forall p, In p done -> snd (Find xml cc (Resource.Identifier p)) = None)
    /\ snd (Find xml cc (Resource.Identifier r)) = Some e
    /\ entries = map (entryOf xml cc) done.
Proof. intros H. exact (resourcesFrom_error _ _ _ _ H). Qed.

End ResourcesErrors.

Lemma Resources_error_prefix_witness :
  exists done r rest,
    Resources_ (manifest ccMissingPage) = done ++ r :: rest
    /\ (forall p, In p done ->
                  snd (Find fixtureXML ccMissingPage (Resource.Identifier p)) = None)
    /\ snd (Find fixtureXML ccMissingPage (Resource.Identifier r))
       = Some (OfArchive (ErrNotExist "web/page.html"))
    /\ [] = map (entryOf fixtureXML ccMissingPage) done.
Proof.
  apply (Resources_error_prefix fixtureXML ccMissingPage []
           (OfArchive (ErrNotExist "web/page.html"))).
  reflexivity.
Defined.

(** ** The listers *)

Section Patterns.

Lemma stripPrefix_spec (p s rest : string) :
  stripPrefix p s = Some rest <-> s = (p ++ rest)%string.
Proof.
  revert s. induction p as [|a p IH]; intros s; simpl.
  - split; [intros [= ->]; reflexivity | intros ->; reflexivity].
  - destruct s as [|b s]; [split; discriminate|].
    destruct (Ascii.eqb_spec a b) as [->|NE].
    + rewrite IH. split; [intros ->; reflexivity | intros [= ->]; reflexivity].
    + split; [discriminate | intros [= E _]; congruence].
Qed.

Lemma matchHere_spec (family s : string) :
  matchHere (FamilyDigit family) s = true
  <-> exists d post, isDigit d = true /\ s = (family ++ String d post)%string.
Proof.
  unfold matchHere. destruct (stripPrefix family s) as [rest|] eqn:Hs.
  - apply stripPrefix_spec in Hs. subst s. destruct rest as [|c rest].
    + split; [discriminate|]. intros [d [post [_ H]]].
      exfalso. revert H. clear. induction family as [|a f IH]; simpl.
      * discriminate.
      * intros [= H]. now apply IH.
    + split.
      * intros Hd. now exists c, rest.
      * intros [d [post [Hd H]]].
        assert (E : String c rest = String d post).
        { revert H. clear. induction family as [|a f IH]; simpl.
          - trivial.
          - intros [= H]. now apply IH. }
        injection E as -> _. exact Hd.
  - split; [discriminate|]. intros [d [post [_ H]]].
    apply stripPrefix_spec in H. congruence.
Qed.

(** The pattern matches exactly the strings that have the family literal
    followed by an ASCII digit somewhere in them. *)
Lemma reFind_spec (family s : string) :
  reFind (FamilyDigit family) s = true <-> hasFamilyDigit family s.
Proof.
  unfold hasFamilyDigit. split.
  - induction s as [|c s IH].
    + cbn [reFind]. rewrite orb_false_r, matchHere_spec.
      intros [d [post [Hd H]]]. now exists "", d, post.
    + cbn [reFind]. rewrite orb_true_iff, matchHere_spec.
      intros [[d [post [Hd H]]]|H].
      * now exists "", d, post.
      * destruct (IH H) as [pre [d [post [Hd ->]]]].
        now exists (String c pre), d, post.
  - intros [pre [d [post [Hd ->]]]]. induction pre as [|c pre IH].
    + simpl append.
      destruct (family ++ String d post)%string eqn:E; cbn [reFind];
        rewrite <- E; apply orb_true_iff; left; apply matchHere_spec;
        now exists d, post.
    + simpl append. cbn [reFind]. rewrite IH. apply orb_true_r.
Qed.

(** Every type tag that [Find] decodes as a family is matched by the
    pattern of that family's lister. *)
Theorem Find_tags_match_lister_patterns (ty : string) :
  (oneOf ty topicTypes = true -> reFind (FamilyDigit "imsdt_xmlv1p") ty = true)
  /\ (oneOf ty weblinkTypes = true ->
      reFind (FamilyDigit "imswl_xmlv1p") ty = true)
  /\ (oneOf ty assignmentTypes = true ->
      reFind (FamilyDigit "assignment_xmlv1p") ty = true)
  /\ (oneOf ty qtiTypes = true -> reFind (FamilyDigit "imsqti_xmlv1p") ty = true)
  /\ (oneOf ty ltiTypes = true ->
      reFind (FamilyDigit "imsbasiclti_xmlv1p") ty = true).
Proof.
  repeat split; intros H; apply oneOf_In in H; simpl in H;
    repeat (destruct H as [H|H]); try contradiction; subst ty; reflexivity.
Qed.

End Patterns.

Lemma Find_tags_match_lister_patterns_witness :
  reFind (FamilyDigit "imsqti_xmlv1p") "imsqti_xmlv1p2/imscc_xmlv1p1/assessment"
  = true.
Proof.
  apply (Find_tags_match_lister_patterns "imsqti_xmlv1p2/imscc_xmlv1p1/assessment").
  reflexivity.
Defined.

Section Listers.

Variable xml : XMLDecoder.
Variable cc : IMSCC.

Lemma append_files (fs : list Resource.File) (paths : list string) :
  fold_left (fun paths f => paths ++ [Resource.FileHref f]) fs paths
  = paths ++ map Resource.FileHref fs.
Proof.
  revert paths. induction fs as [|f fs IH]; intros paths; simpl.
  - now rewrite app_nil_r.
  - now rewrite IH, <- app_assoc.
Qed.

Lemma collect_paths (pattern : Regexp) (rs : list Resource.t) :
  forall paths,
    fold_left
      (fun paths r =>
         if reFind pattern (Resource.Type_ r)
         then fold_left (fun paths f => paths ++ [Resource.FileHref f])
                (Resource.File_ r) paths
         else paths)
      rs paths
    = paths
      ++ flat_map
           (fun r =>
              if reFind pattern (Resource.Type_ r)
              then map Resource.FileHref (Resource.File_ r)
              else [])
           rs.
Proof.
  induction rs as [|r rs IH]; intros paths; simpl.
  - now rewrite app_nil_r.
  - rewrite IH. destruct (reFind pattern (Resource.Type_ r)).
    + now rewrite append_files, <- app_assoc.
    + reflexivity.
Qed.

Lemma findResourcesByType_flat_map (pattern : Regexp) :
  fst (findResourcesByType cc pattern)
  = flat_map
      (fun r =>
         if reFind pattern (Resource.Type_ r)
         then map Resource.FileHref (Resource.File_ r)
         else [])
      (Resources_ (manifest cc)).
Proof. unfold findResourcesByType. simpl. now rewrite collect_paths. Qed.

(** [findResourcesByType] never fails, and returns the path of every file
    of every catalog resource whose type has the family literal followed
    by a digit in it, and no other path. *)
Theorem findResourcesByType_paths (family : string) :
  snd (findResourcesByType cc (FamilyDigit family)) = None
  /\ forall p,
       In p (fst (findResourcesByType cc (FamilyDigit family)))
       <-> exists r f,
             In r (Resources_ (manifest cc))
             /\ In f (Resource.File_ r)
             /\ Resource.FileHref f = p
             /\ hasFamilyDigit family (Resource.Type_ r).
Proof.
  split; [reflexivity|]. intros p.
  rewrite findResourcesByType_flat_map, in_flat_map. split.
  - intros [r [Hr Hp]].
    destruct (reFind (FamilyDigit family) (Resource.Type_ r)) eqn:Hm;
      [|destruct Hp].
    apply in_map_iff in Hp. destruct Hp as [f [Hf Hin]].
    exists r, f. repeat split; try assumption. now apply reFind_spec.
  - intros [r [f [Hr [Hf [Hp Hm]]]]]. exists r. split; [exact Hr|].
    apply reFind_spec in Hm. rewrite Hm. apply in_map_iff. now exists f.
Qed.

Lemma decodeEach_all (A : Type) (decode : string -> A * option XMLError)
  (keep : A -> bool) (paths : list string) :
  allReadable cc paths ->
  forall acc,
    decodeEach decode keep cc paths acc
    = (acc ++ filter keep (map (fun p => fst (decode (contentOf cc p))) paths),
       None).
Proof.
  induction paths as [|p paths IH]; intros Hall acc; simpl.
  - now rewrite app_nil_r.
  - destruct (Hall p (or_introl eq_refl)) as [bytes Hb].
    unfold contentOf. rewrite Hb. unfold readPath in Hb.
    destruct (Open (Reader_ cc) p) as [e|f]; [discriminate|].
    rewrite Hb. rewrite IH by (intros q Hq; apply Hall; now right).
    destruct (keep (fst (decode bytes))); [|reflexivity].
    now rewrite <- app_assoc.
Qed.

Lemma filter_all (A : Type) (l : list A) : filter (fun _ => true) l = l.
Proof. induction l as [|a l IH]; simpl; [reflexivity | now rewrite IH]. Qed.

Lemma decodeEach_error (A : Type) (decode : string -> A * option XMLError)
  (keep : A -> bool) (paths : list string) :
  forall acc e,
    snd (decodeEach decode keep cc paths acc) = Some e ->
    unreadable cc paths e.
Proof.
  induction paths as [|p paths IH]; intros acc e; simpl; [discriminate|].
  destruct (Open (Reader_ cc) p) as [a|f] eqn:Ho.
  - intros [= <-]. exists p, a. repeat split; [now left|].
    unfold readPath. now rewrite Ho.
  - destruct (ReadAll f) as [a|bytes] eqn:Hr.
    + intros [= <-]. exists p, a. repeat split; [now left|].
      unfold readPath. now rewrite Ho.
    + intros He. destruct (IH _ _ He) as [q [a [Hq Hrest]]].
      exists q, a. split; [now right | exact Hrest].
Qed.

Lemma lister_all (A : Type) (pattern : Regexp)
  (decode : string -> A * option XMLError) (keep : A -> bool) :
  allReadable cc (fst (findResourcesByType cc pattern)) ->
  lister pattern decode keep cc
  = (filter keep
       (map (fun p => fst (decode (contentOf cc p)))
          (fst (findResourcesByType cc pattern))),
     None).
Proof.
  intros Hall. unfold lister.
  change (findResourcesByType cc pattern)
    with (fst (findResourcesByType cc pattern), @None Error) at 1.
  cbv iota beta. now rewrite (decodeEach_all _ _ _ _ Hall).
Qed.

Lemma lister_error (A : Type) (pattern : Regexp)
  (decode : string -> A * option XMLError) (keep : A -> bool) (e : Error) :
  snd (lister pattern decode keep cc) = Some e ->
  unreadable cc (fst (findResourcesByType cc pattern)) e.
Proof.
  unfold lister.
  change (findResourcesByType cc pattern)
    with (fst (findResourcesByType cc pattern), @None Error) at 1.
  cbv iota beta. apply decodeEach_error.
Qed.

(** When every listed file opens and reads, [Topics], [Weblinks] and
    [LTIs] return no error and one value per listed file, in order: what
    the decoder left for that file, whether or not it accepted it. *)
Theorem unchecked_listers_one_per_file :
  (allReadable cc (fst (findResourcesByType cc (FamilyDigit "imsdt_xmlv1p"))) ->
   Topics xml cc
   = (map (fun p => fst (UnmarshalTopic xml (contentOf cc p)))
        (fst (findResourcesByType cc (FamilyDigit "imsdt_xmlv1p"))),
      None))
  /\ (allReadable cc (fst (findResourcesByType cc (FamilyDigit "imswl_xmlv1p"))) ->
      Weblinks xml cc
      = (map (fun p => fst (UnmarshalWebLink xml (contentOf cc p)))
           (fst (findResourcesByType cc (FamilyDigit "imswl_xmlv1p"))),
         None))
  /\ (allReadable cc
        (fst (findResourcesByType cc (FamilyDigit "imsbasiclti_xmlv1p"))) ->
      LTIs xml cc
      = (map (fun p => fst (UnmarshalLTI xml (contentOf cc p)))
           (fst (findResourcesByType cc (FamilyDigit "imsbasiclti_xmlv1p"))),
         None)).
Proof.
  repeat split; intros Hall; unfold Topics, Weblinks, LTIs;
    rewrite (lister_all _ _ _ _ Hall); now rewrite filter_all.
Qed.

(** When every listed file opens and reads, [Assignments] and [QTIs]
    return no error and, in order, the decoded values whose root element
    has the expected name. *)
Theorem checked_listers_keep_expected_root :
  (allReadable cc
     (fst (findResourcesByType cc (FamilyDigit "assignment_xmlv1p"))) ->
   Assignments xml cc
   = (filter (fun a => Local (AssignmentXMLName a) =? "assignment")
        (map (fun p => fst (UnmarshalAssignment xml (contentOf cc p)))
           (fst (findResourcesByType cc (FamilyDigit "assignment_xmlv1p")))),
      None))
  /\ (allReadable cc (fst (findResourcesByType cc (FamilyDigit "imsqti_xmlv1p"))) ->
      QTIs xml cc
      = (filter (fun q => Local (QtiXMLName q) =? "questestinterop")
           (map (fun p => fst (UnmarshalQTI xml (contentOf cc p)))
              (fst (findResourcesByType cc (FamilyDigit "imsqti_xmlv1p")))),
         None)).
Proof.
  repeat split; intros Hall; unfold Assignments, QTIs;
    now rewrite (lister_all _ _ _ _ Hall).
Qed.

(** A lister fails only on a listed file that does not open or read, and
    then with the archive's error for it; no decoder error is returned. *)
Theorem listers_fail_on_unreadable_file (e : Error) :
  (snd (Assignments xml cc) = Some e ->
   unreadable cc (fst (findResourcesByType cc (FamilyDigit "assignment_xmlv1p"))) e)
  /\ (snd (LTIs xml cc) = Some e ->
      unreadable cc
        (fst (findResourcesByType cc (FamilyDigit "imsbasiclti_xmlv1p"))) e)
  /\ (snd (QTIs xml cc) = Some e ->
      unreadable cc (fst (findResourcesByType cc (FamilyDigit "imsqti_xmlv1p"))) e)
  /\ (snd (Topics xml cc) = Some e ->
      unreadable cc (fst (findResourcesByType cc (FamilyDigit "imsdt_xmlv1p"))) e)
  /\ (snd (Weblinks xml cc) = Some e ->
      unreadable cc (fst (findResourcesByType cc (FamilyDigit "imswl_xmlv1p"))) e).
Proof.
  repeat split; unfold Assignments, LTIs, QTIs, Topics, Weblinks;
    apply lister_error.
Qed.

End Listers.

Lemma unchecked_listers_one_per_file_witness :
  Weblinks fixtureXML ccWeblink
  = (map (fun p => fst (UnmarshalWebLink fixtureXML (contentOf ccWeblink p)))
       (fst (findResourcesByType ccWeblink (FamilyDigit "imswl_xmlv1p"))),
     None).
Proof.
  apply (proj1 (proj2 (unchecked_listers_one_per_file fixtureXML ccWeblink))).
  intros p Hin. simpl in Hin.
  destruct Hin as [<-|[<-|[]]]; eexists; reflexivity.
Defined.

Lemma checked_listers_keep_expected_root_witness :
  Assignments fixtureXML ccAssignment
  = (filter (fun a => Local (AssignmentXMLName a) =? "assignment")
       (map (fun p => fst (UnmarshalAssignment fixtureXML (contentOf ccAssignment p)))
          (fst (findResourcesByType ccAssignment (FamilyDigit "assignment_xmlv1p")))),
     None).
Proof.
  apply (proj1 (checked_listers_keep_expected_root fixtureXML ccAssignment)).
  intros p Hin. simpl in Hin.
  destruct Hin as [<-|[<-|[]]]; eexists; reflexivity.
Defined.

(** The assignment fixture: the companion HTML file is decoded and then
    left out. *)
Example Assignments_fixture :
  Assignments fixtureXML ccAssignment
  = ([{| AssignmentXMLName := {| Space := ""; Local := "assignment" |} |}], None).
Proof. reflexivity. Qed.

Lemma listers_fail_on_unreadable_file_witness :
  unreadable ccMissingLink
    (fst (findResourcesByType ccMissingLink (FamilyDigit "imswl_xmlv1p")))
    (OfArchive (ErrNotExist "wl2/link.xml")).
Proof.
  apply (proj2 (proj2 (proj2 (proj2
           (listers_fail_on_unreadable_file fixtureXML ccMissingLink
              (OfArchive (ErrNotExist "wl2/link.xml"))))))).
  reflexivity.
Defined.

Lemma Assignments_root_witness :
  Local (AssignmentXMLName
           {| AssignmentXMLName := {| Space := ""; Local := "assignment" |} |})
  = "assignment".
Proof.
  apply (Assignments_root fixtureXML ccAssignment). simpl. auto.
Defined.

Lemma QTIs_root_witness :
  Local (QtiXMLName {| QtiXMLName := {| Space := ""; Local := "questestinterop" |} |})
  = "questestinterop".
Proof.
  apply (QTIs_root fixtureXML ccQuiz). simpl. auto.
Defined.

(** ** More on FindFile *)

Section FindFileOutcomes.

Variable cc : IMSCC.

Lemma findFileIn_panics (rs : list Resource.t) (id : string) :
  findFileIn cc rs id = Panics 0 0
  <-> exists pre r post,
        rs = pre ++ r :: post
        /\ (forall p, In p pre -> Resource.Identifier p <> id)
        /\ Resource.Identifier r = id
        /\ Resource.File_ r = [].
Proof.
  induction rs as [|r rs IH]; simpl.
  - split; [discriminate|]. intros [pre [q [post [H _]]]].
    destruct pre; discriminate.
  - destruct (String.eqb_spec (Resource.Identifier r) id) as [E|NE].
    + split.
      * intros H. exists [], r, rs. repeat split; [intros p [] | exact E |].
        destruct (Resource.File_ r) as [|f fs]; [reflexivity|].
        destruct (Open (Reader_ cc) (Resource.FileHref f)); discriminate.
      * intros [pre [q [post [Hrs [Hpre [Hq Hf]]]]]].
        destruct pre as [|p pre]; simpl in Hrs; injection Hrs as E1 E2.
        -- subst q. now rewrite Hf.
        -- exfalso. apply (Hpre p); [now left | now subst p].
    + rewrite IH. split.
      * intros [pre [q [post [-> [Hpre [Hq Hf]]]]]].
        exists (r :: pre), q, post. repeat split; try assumption.
        intros p [<-|Hp]; [exact NE | now apply Hpre].
      * intros [pre [q [post [Hrs [Hpre [Hq Hf]]]]]].
        destruct pre as [|p pre]; simpl in Hrs; injection Hrs as E1 E2.
        -- subst q. contradiction.
        -- exists pre, q, post. repeat split; try assumption.
           intros p' Hp. apply Hpre. now right.
Qed.

(** [FindFile] panics exactly when the first catalog resource carrying
    the identifier lists no file. *)
Theorem FindFile_panics_iff (id : string) :
  FindFile cc id = Panics 0 0
  <-> exists pre r post,
        Resources_ (manifest cc) = pre ++ r :: post
        /\ (forall p, In p pre -> Resource.Identifier p <> id)
        /\ Resource.Identifier r = id
        /\ Resource.File_ r = [].
Proof. apply findFileIn_panics. Qed.

(** [FindFile] returns the error [couldn't find file for id] exactly when
    no catalog resource carries the identifier. *)
Theorem FindFile_not_found_iff (id : string) :
  FindFile cc id = Returns (None, Some (CouldntFindFile id))
  <-> forall r, In r (Resources_ (manifest cc)) -> Resource.Identifier r <> id.
Proof.
  split; [|apply FindFile_absent].
  unfold FindFile. induction (Resources_ (manifest cc)) as [|r rs IH]; simpl.
  - intros _ q [].
  - destruct (String.eqb_spec (Resource.Identifier r) id) as [E|NE].
    + destruct (Resource.File_ r) as [|f fs]; [discriminate|].
      destruct (Open (Reader_ cc) (Resource.FileHref f)); discriminate.
    + intros H q [<-|Hq]; [exact NE | now apply IH].
Qed.

End FindFileOutcomes.

Lemma FindFile_first_file_witness :
  FindFile ccWeblink "wl1"
  = Returns (Some {| ReadAll := inr "<webLink></webLink>" |}, None).
Proof.
  apply (FindFile_first_file ccWeblink [] [] weblinkResource
           (file "wl1/link.xml") [file "wl1/link_meta.html"]).
  - reflexivity.
  - intros p [].
  - reflexivity.
Defined.

(** ** More on Load *)

Section LoadResults.

Variable xml : XMLDecoder.
Variable OpenReader : string -> ArchiveError + Reader.

(** [Load] fails only on an archive error: the one of opening the
    archive, or the one of opening or reading the manifest entry. *)
Theorem Load_error_is_archive_error (path : string) (e : Error) :
  snd (Load xml OpenReader path) = Some e ->
  (exists a, OpenReader path = inl a /\ e = OfArchive a)
  \/ (exists rd a,
        OpenReader path = inr rd
        /\ readPath {| Reader_ := rd; Path := path; manifest := zeroManifest |}
             (manifestPath (File rd)) = inl a
        /\ e = OfArchive a).
Proof.
  unfold Load. destruct (OpenReader path) as [a|rd].
  - simpl. intros [= <-]. left. now exists a.
  - unfold parseManifest, readPath. simpl.
    destruct (Open rd (manifestPath (File rd))) as [a|f] eqn:Ho.
    + simpl. intros [= <-]. right. exists rd, a. now rewrite Ho.
    + destruct (ReadAll f) as [a|bytes] eqn:Hr; simpl.
      * intros [= <-]. right. exists rd, a. now rewrite Ho.
      * discriminate.
Qed.

Lemma Load_error_zero_manifest (path : string) (e : Error) :
  snd (Load xml OpenReader path) = Some e ->
  manifest (fst (Load xml OpenReader path)) = zeroManifest.
Proof.
  unfold Load. destruct (OpenReader path) as [a|rd]; [reflexivity|].
  unfold parseManifest. simpl.
  destruct (Open rd (manifestPath (File rd))) as [a|f]; [reflexivity|].
  destruct (ReadAll f) as [a|bytes]; [reflexivity | discriminate].
Qed.

(** The cartridge that [Load] returns beside an error is empty: its title
    is the empty string, [Items] and [Resources] return empty lists
    without error, and [Find] and [FindFile] find no identifier. *)
Theorem Load_failed_is_empty (path : string) (e : Error) :
  snd (Load xml OpenReader path) = Some e ->
  Title (fst (Load xml OpenReader path)) = ""
  /\ Items (fst (Load xml OpenReader path)) = ([], None)
  /\ Resources xml (fst (Load xml OpenReader path)) = ([], None)
  /\ (forall id,
        Find xml (fst (Load xml OpenReader path)) id
        = (FoundResource Resource.zero, Some (CouldNotFindResource id)))
  /\ (forall id,
        FindFile (fst (Load xml OpenReader path)) id
        = Returns (None, Some (CouldntFindFile id))).
Proof.
  intros He. pose proof (Load_error_zero_manifest path e He) as Hm.
  unfold Title, Items, Resources, Find, FindFile. rewrite Hm.
  repeat split.
Qed.

End LoadResults.

Lemma Load_error_is_archive_error_witness :
  (exists a,
     fixtureOpenReader "empty.imscc" = inl a
     /\ OfArchive (ErrInvalid "") = OfArchive a)
  \/ (exists rd a,
        fixtureOpenReader "empty.imscc" = inr rd
        /\ readPath {| Reader_ := rd; Path := "empty.imscc";
                       manifest := zeroManifest |}
             (manifestPath (File rd)) = inl a
        /\ OfArchive (ErrInvalid "") = OfArchive a).
Proof.
  apply (Load_error_is_archive_error fixtureXML fixtureOpenReader "empty.imscc").
  reflexivity.
Defined.

Lemma Load_failed_is_empty_witness :
  Title (fst (Load fixtureXML fixtureOpenReader "missing.imscc")) = "".
Proof.
  apply (Load_failed_is_empty fixtureXML fixtureOpenReader "missing.imscc"
           (OfArchive (ErrNotExist "missing.imscc"))).
  reflexivity.
Defined.

(** ** When Resources succeeds *)

Section ResourcesSuccess.

Variable xml : XMLDecoder.
Variable cc : IMSCC.

Lemma resourcesFrom_no_error (rs : list Resource.t) :
  forall acc,
    snd (resourcesFrom xml cc rs acc) = None ->
    forall r, In r rs -> snd (Find xml cc (Resource.Identifier r)) = None.
Proof.
  induction rs as [|q rs IH]; intros acc Hnone r Hin; [destruct Hin|].
  simpl in Hnone.
  pose proof (FindItem_no_error cc (Resource.Identifier q)) as Hi.
  destruct (Find xml cc (Resource.Identifier q)) as [found [e|]] eqn:Hf;
    [discriminate|].
  destruct (FindItem cc (Resource.Identifier q)) as [item err'].
  simpl in Hi. subst err'.
  destruct Hin as [<-|Hin]; [now rewrite Hf | exact (IH _ Hnone r Hin)].
Qed.

(** [Resources] returns no error exactly when [Find] succeeds on the
    identifier of every catalog resource; it then returns one entry per
    catalog resource, in catalog order, also when identifiers repeat
    (each entry then shows the first resource carrying the identifier). *)
Theorem Resources_succeeds_iff :
  (snd (Resources xml cc) = None
   <-> forall r, In r (Resources_ (manifest cc)) ->
                 snd (Find xml cc (Resource.Identifier r)) = None)
  /\ (snd (Resources xml cc) = None ->
      fst (Resources xml cc) = map (entryOf xml cc) (Resources_ (manifest cc))).
Proof.
  unfold Resources. split; [split|].
  - apply resourcesFrom_no_error.
  - intros Hall. now rewrite (resourcesFrom_ok xml cc _ Hall).
  - intros Hnone.
    now rewrite (resourcesFrom_ok xml cc _ (resourcesFrom_no_error _ _ Hnone)).
Qed.

End ResourcesSuccess.

Lemma Resources_succeeds_iff_witness :
  fst (Resources fixtureXML ccCourse)
  = map (entryOf fixtureXML ccCourse) (Resources_ (manifest ccCourse)).
Proof.
  apply (proj2 (Resources_succeeds_iff fixtureXML ccCourse)). reflexivity.
Defined.

(** ** The Item paired with a resource *)

Section ResourcesPairing.

Variable xml : XMLDecoder.
Variable cc : IMSCC.

(** The entries returned are those of an initial part of the catalog. *)
Lemma resourcesFrom_prefix (rs : list Resource.t) :
  forall acc,
    exists done rest,
      rs = done ++ rest
      /\ fst (resourcesFrom xml cc rs acc) = acc ++ map (entryOf xml cc) done.
Proof.
  induction rs as [|r rs IH]; intros acc.
  - exists [], []. split; [reflexivity|]. simpl. now rewrite app_nil_r.
  - simpl. pose proof (FindItem_no_error cc (Resource.Identifier r)) as Hi.
    destruct (Find xml cc (Resource.Identifier r)) as [found [e|]] eqn:Hf.
    + exists [], (r :: rs). split; [reflexivity|]. simpl. now rewrite app_nil_r.
    + destruct (FindItem cc (Resource.Identifier r)) as [item err'] eqn:Hit.
      simpl in Hi. subst err'.
      destruct (IH (acc ++ [{| FullResource_Resource := found;
                               FullResource_Item := item |}]))
        as [done [rest [-> Hfst]]].
      exists (r :: done), rest. split; [reflexivity|].
      rewrite Hfst, <- app_assoc. simpl. unfold entryOf at 2.
      now rewrite Hf, Hit.
Qed.

Lemma Resources_nth (i : nat) (fr : FullResource) :
  nth_error (fst (Resources xml cc)) i = Some fr ->
  exists r,
    nth_error (Resources_ (manifest cc)) i = Some r /\ fr = entryOf xml cc r.
Proof.
  unfold Resources.
  destruct (resourcesFrom_prefix (Resources_ (manifest cc)) [])
    as [done [rest [-> ->]]].
  simpl. intros Hnth. rewrite nth_error_map in Hnth.
  destruct (nth_error done i) as [r|] eqn:Hr; [|discriminate].
  injection Hnth as <-. exists r. split; [|reflexivity].
  rewrite nth_error_app1; [exact Hr|].
  apply nth_error_Some. congruence.
Qed.

(** [FindItem] searches below each immediate child of the root item in
    turn, and the first child below which [findItem] returns an item whose
    identifierref equals the identifier decides; without such a child the
    result is the zero Item. *)
Lemma FindItemFrom_first_hit (id : string) (tops : list Item.t) :
  forall err,
    fst (FindItemFrom tops id Item.zero err)
    = match find
              (fun top =>
                 Item.Identifierref (fst (findItem (Item.Item top) id)) =? id)
              tops
      with
      | Some top => fst (findItem (Item.Item top) id)
      | None => Item.zero
      end.
Proof.
  induction tops as [|top tops IH]; intros err; [reflexivity|].
  cbn [FindItemFrom find].
  pose proof (findItemBelow_inv id top (flat_map subitems (Item.Item top))
                (incl_refl _)) as [Herr Hitem].
  rewrite <- findItem_below in Herr, Hitem.
  destruct (findItem (Item.Item top) id) as [item' err'] eqn:Hfind.
  simpl in Herr, Hitem |- *. subst err'.
  destruct (String.eqb_spec (Item.Identifierref item') id) as [E|NE].
  - now rewrite Hfind.
  - destruct Hitem as [->|[Href _]]; [apply IH | contradiction].
Qed.

(** C10.  The entry at each position of what [Resources] returns belongs
    to the catalog resource at that position: it holds what [Find] returns
    for that resource's identifier and the Item [FindItem] returns for it.
    That Item is found by searching below each immediate child of the root
    item in turn ([findItem] on the child's own children), the first child
    with a hit deciding.  It is the zero Item, or an item strictly below
    the immediate children of the root item whose identifierref is equal
    to the resource's identifier.  So when no item strictly below those
    children has the identifier as its identifierref, whatever the
    children themselves refer to, the entry carries the zero Item; and
    when a child of one of them does, the entry carries an item whose
    identifierref is the identifier. *)
Theorem Resources_item_pairing (i : nat) (fr : FullResource) :
  nth_error (fst (Resources xml cc)) i = Some fr ->
  exists r,
    nth_error (Resources_ (manifest cc)) i = Some r
    /\ FullResource_Resource fr = fst (Find xml cc (Resource.Identifier r))
    /\ FullResource_Item fr = fst (FindItem cc (Resource.Identifier r))
    /\ FullResource_Item fr
       = match find
                 (fun top =>
                    Item.Identifierref
                      (fst (findItem (Item.Item top) (Resource.Identifier r)))
                    =? Resource.Identifier r)
                 (Item.Item (OrganizationItem (manifest cc)))
         with
         | Some top => fst (findItem (Item.Item top) (Resource.Identifier r))
         | None => Item.zero
         end
    /\ (FullResource_Item fr = Item.zero
        \/ (Item.Identifierref (FullResource_Item fr) = Resource.Identifier r
            /\ In (FullResource_Item fr) (belowTop cc)))
    /\ ((forall x, In x (belowTop cc) ->
                   Item.Identifierref x <> Resource.Identifier r) ->
        FullResource_Item fr = Item.zero)
    /\ ((exists top x,
           In top (Item.Item (OrganizationItem (manifest cc)))
           /\ In x (Item.Item top)
           /\ Item.Identifierref x = Resource.Identifier r) ->
        Item.Identifierref (FullResource_Item fr) = Resource.Identifier r).
Proof.
  intros Hnth. destruct (Resources_nth i fr Hnth) as [r [Hr ->]].
  exists r. split; [exact Hr|]. split; [reflexivity|]. split; [reflexivity|].
  simpl FullResource_Item.
  destruct (FindItem_inv (Resource.Identifier r) cc) as [_ Hitem].
  split; [apply FindItemFrom_first_hit|]. split; [exact Hitem|]. split.
  - intros Hnone. destruct Hitem as [Hz|[Href Hbelow]]; [exact Hz|].
    exfalso. now apply (Hnone _ Hbelow).
  - intros [top [x [Htop [Hx Hid]]]]. unfold FindItem.
    now apply FindItemFrom_second_level with top x.
Qed.

End ResourcesPairing.

Lemma Resources_item_pairing_witness :
  exists r,
    nth_error (Resources_ (manifest ccCourse)) 1 = Some r
    /\ FoundWebLink (webLinkNamed {| Space := ""; Local := "webLink" |})
       = fst (Find fixtureXML ccCourse (Resource.Identifier r))
    /\ pageItem = fst (FindItem ccCourse (Resource.Identifier r))
    /\ pageItem
       = match find
                 (fun top =>
                    Item.Identifierref
                      (fst (findItem (Item.Item top) (Resource.Identifier r)))
                    =? Resource.Identifier r)
                 (Item.Item (OrganizationItem (manifest ccCourse)))
         with
         | Some top => fst (findItem (Item.Item top) (Resource.Identifier r))
         | None => Item.zero
         end
    /\ (pageItem = Item.zero
        \/ (Item.Identifierref pageItem = Resource.Identifier r
            /\ In pageItem (belowTop ccCourse)))
    /\ ((forall x, In x (belowTop ccCourse) ->
                   Item.Identifierref x <> Resource.Identifier r) ->
        pageItem = Item.zero)
    /\ ((exists top x,
           In top (Item.Item (OrganizationItem (manifest ccCourse)))
           /\ In x (Item.Item top)
           /\ Item.Identifierref x = Resource.Identifier r) ->
        Item.Identifierref pageItem = Resource.Identifier r).
Proof.
  apply (Resources_item_pairing fixtureXML ccCourse 1
           {| FullResource_Resource :=
                FoundWebLink (webLinkNamed {| Space := ""; Local := "webLink" |});
              FullResource_Item := pageItem |}).
  reflexivity.
Defined.

(** In the course fixture [res3] is referred to by the locked module
    alone, an immediate child of the root item: its entry, the third,
    carries the zero Item. *)
Example Resources_top_level_reference :
  map FullResource_Item (fst (Resources fixtureXML ccCourse))
  = [lessonItem; pageItem; Item.zero; Item.zero].
Proof. reflexivity. Qed.
